(** * Voxel Draw: the gesture and voxel-grid core of [src/App.tsx]

    A shallow embedding of the per-frame callback [onResults] of the
    React component [App] and of the helpers it uses, followed by the
    properties of the gesture logic and of the voxel store.

    Numbers.  JavaScript numbers are modelled exactly: landmark
    coordinates and pixel positions are rationals ([Q]), grid indices
    and clock readings are integers ([Z]).  The rounding of IEEE doubles
    is outside the model, and so are integers beyond 2^53: on an input
    that sits on a threshold up to the last bit (a distance of 0.04 or
    0.15, a movement of one cell) the doubles of the code can fall on
    the other side of the test than the exact values do.  A value that
    is not a number ([NaN], [undefined] used in arithmetic) is [None]. *)

From Stdlib Require Import ZArith QArith Qround Qabs Lqa Lia.
From Stdlib Require Import Ascii String Decimal DecimalString DecimalZ DecimalPos.
From Stdlib Require Import Reals Qreals Lra.
From stdpp Require Import base option list strings gmap sets fin_sets.

#[local] Open Scope Z_scope.

(** ** JavaScript primitives used by the component *)

Module JS.

(** A number that is known to be integral, or [NaN]. *)
Definition num := option Z.

(** [a + b] on numbers: [NaN] is absorbing. *)
Definition add (a : num) (b : Z) : num :=
  match a with
  | Some z => Some (z + b)
  | None => None
  end.

(** [`${n}`]: the decimal text of an integral number, ["NaN"] otherwise. *)
Definition toString (n : num) : string :=
  match n with
  | Some z => NilZero.string_of_int (Z.to_int z)
  | None => "NaN"%string
  end.

(** [Number(s)] on the texts the component can meet: the empty text is
    [0], an optionally signed run of decimal digits is its value, and
    anything else is [NaN].  (JavaScript also accepts surrounding
    blanks, fractions, exponents, radix prefixes and ["Infinity"];
    no key written by the component contains them.) *)
Definition Number (s : string) : num :=
  match s with
  | EmptyString => Some 0
  | String a s' =>
      if Ascii.eqb a "+" then
        option_map Z.of_uint (NilZero.uint_of_string s')
      else option_map Z.of_int (NilZero.int_of_string s)
  end.

(** [s.split(',')]: the pieces between commas, at least one piece. *)
Fixpoint split_comma (s : string) : list string :=
  match s with
  | EmptyString => [EmptyString]
  | String c s' =>
      if Ascii.eqb c "," then EmptyString :: split_comma s'
      else match split_comma s' with
           | piece :: rest => String c piece :: rest
           | [] => [String c EmptyString]
           end
  end.

(** [arr[i]] followed by arithmetic: a missing element is [undefined],
    which arithmetic turns into [NaN]. *)
Definition at_index (parts : list num) (i : nat) : num :=
  match parts !! i with
  | Some n => n
  | None => None
  end.

(** [Math.pow(a, 2)]. *)
Definition pow2 (a : Q) : Q := a * a.

(** [Math.floor] and [Math.round] (halves go up, as in JavaScript). *)
Definition floor (q : Q) : Z := Qfloor q.
Definition round (q : Q) : Z := Qfloor (q + (1 # 2)).

(** [a < b] and [a > b] on rationals. *)
Definition ltb (a b : Q) : bool :=
  (Qnum a * QDen b <? Qnum b * QDen a)%Z.
Definition gtb (a b : Q) : bool := ltb b a.

(** [Math.sqrt(r) < c] for a positive constant [c].  A square root has
    no rational value in general, so the test is taken in its squared
    form, which [sqrt_lt_squared] below shows to be the same test. *)
Definition sqrt_ltb (r c : Q) : bool := ltb r (c * c).

End JS.

(** ** The voxel store: [voxelsRef : Set<string>] *)

Definition gridSize : Z := 40.

(** The key text [`${gx},${gy}`]. *)
Definition keyOf (gx gy : JS.num) : string :=
  (JS.toString gx ++ "," ++ JS.toString gy)%string.

(** [voxelsRef.current.add(key)]. *)
Definition stamp (key : string) (voxels : gset string) : gset string :=
  {[ key ]} ∪ voxels.

(** The body of the rebuilding loop, for one key:
    [[gx, gy] = key.split(',').map(Number)] and then
    [`${gx + shiftX},${gy + shiftY}`]. *)
Definition shiftKey (shiftX shiftY : Z) (key : string) : string :=
  let parts := map JS.Number (JS.split_comma key) in
  let gx := JS.at_index parts 0 in
  let gy := JS.at_index parts 1 in
  keyOf (JS.add gx shiftX) (JS.add gy shiftY).

(** The loop that fills [newVoxels] and replaces the store by it. *)
Definition shiftAll (shiftX shiftY : Z) (voxels : gset string) : gset string :=
  set_map (shiftKey shiftX shiftY) voxels.

(** [voxelsRef.current.clear()]. *)
Definition clearCanvas (voxels : gset string) : gset string := ∅.

(** A cell of the grid and the key that stands for it. *)
Definition cellKey (c : Z * Z) : string := keyOf (Some c.1) (Some c.2).

(** The store that holds exactly the given cells. *)
Definition encode (cells : gset (Z * Z)) : gset string := set_map cellKey cells.

Definition translate (dx dy : Z) (c : Z * Z) : Z * Z := (c.1 + dx, c.2 + dy).

(** Every key of the store is the key of a cell. *)
Definition well_formed (voxels : gset string) : Prop :=
  ∀ key, key ∈ voxels → ∃ c : Z * Z, key = cellKey c.

(** ** Landmarks, canvas and the state kept between frames *)

(** [{ x, y }]: a landmark in normalized image space, or a pixel position. *)
Module Point.
Record t : Type := mk { x : Q; y : Q }.
End Point.

(** The canvas element: its pixel [width] and [height]. *)
Module Canvas.
Record t : Type := mk { width : Z; height : Z }.
End Canvas.

(** The landmarks that [onResults] reads from one hand. *)
Record Tips : Type := mkTips {
  thumbTip : Point.t;   (* landmarks[4] *)
  indexTip : Point.t;   (* landmarks[8] *)
  middleTip : Point.t;  (* landmarks[12] *)
  ringTip : Point.t;    (* landmarks[16] *)
  pinkyTip : Point.t;   (* landmarks[20] *)
  wrist : Point.t       (* landmarks[0] *)
}.

(** One hand of a frame: its landmark array and the value that
    [Date.now()] returns while the hand is processed. *)
Record Hand : Type := mkHand {
  landmarks : list Point.t;
  now : Z
}.

(** The four refs of the component. *)
Record State : Type := mkState {
  voxelsRef : gset string;
  fistStartTimeRef : option Z;
  isGrabbingRef : bool;
  lastHandPosRef : option Point.t
}.

(** What a frame does to the store, in the order it does it. *)
Inductive Cmd : Type :=
| Stamp (key : string)
| ShiftAll (shiftX shiftY : Z).

Definition initialState : State :=
  {| voxelsRef := ∅; fistStartTimeRef := None;
     isGrabbingRef := false; lastHandPosRef := None |}.

(** ** Gesture detection *)

(** The radicand of [getDistance(p1, p2)]. *)
Definition getDistanceSq (p1 p2 : Point.t) : Q :=
  JS.pow2 (Point.x p1 - Point.x p2) + JS.pow2 (Point.y p1 - Point.y p2).

(** [dist < 0.04] *)
Definition isPinching (t : Tips) : bool :=
  JS.sqrt_ltb (getDistanceSq (thumbTip t) (indexTip t)) 0.04.

(** The radicands of the four entries of [fingerDists]. *)
Definition fingerDists (t : Tips) : list Q :=
  [ getDistanceSq (indexTip t) (wrist t);
    getDistanceSq (middleTip t) (wrist t);
    getDistanceSq (ringTip t) (wrist t);
    getDistanceSq (pinkyTip t) (wrist t) ].

(** [fingerDists.every(d => d < 0.15)] *)
Definition isFist (t : Tips) : bool :=
  forallb (fun r => JS.sqrt_ltb r 0.15) (fingerDists t).

(** Mirrored pixel position of a landmark:
    [((1 - p.x) * width, p.y * height)]. *)
Definition mapped (cv : Canvas.t) (p : Point.t) : Point.t :=
  Point.mk ((1 - Point.x p) * inject_Z (Canvas.width cv))
           (Point.y p * inject_Z (Canvas.height cv)).

(** ** The logic of one hand *)

(** [!fistStartTimeRef.current]: true for [null] and for [0]. *)
Definition falsy (t : option Z) : bool :=
  match t with
  | None => true
  | Some v => v =? 0
  end.

(** A ref that holds [number | null], used as a number: [null] is [0]. *)
Definition numberOf (t : option Z) : Z := default 0 t.

(** The first [if] of step 4: the dwell timer. *)
Definition fistLogic (fist : bool) (now : Z) (st : State) : State :=
  if fist then
    if falsy (fistStartTimeRef st) then
      mkState (voxelsRef st) (Some now) (isGrabbingRef st) (lastHandPosRef st)
    else if now - numberOf (fistStartTimeRef st) >? 1000 then
      mkState (voxelsRef st) (fistStartTimeRef st) true (lastHandPosRef st)
    else st
  else mkState (voxelsRef st) None false None.

(** The grabbing branch: move all voxels by the wrist movement. *)
Definition grabLogic (currentHandPos : Point.t) (st : State) : State * list Cmd :=
  match lastHandPosRef st with
  | Some last =>
      let dx := (Point.x currentHandPos - Point.x last)%Q in
      let dy := (Point.y currentHandPos - Point.y last)%Q in
      if JS.gtb (Qabs dx) (inject_Z gridSize)
         || JS.gtb (Qabs dy) (inject_Z gridSize) then
        let shiftX := JS.round (dx / inject_Z gridSize) in
        let shiftY := JS.round (dy / inject_Z gridSize) in
        if negb (shiftX =? 0) || negb (shiftY =? 0) then
          (mkState (shiftAll shiftX shiftY (voxelsRef st))
                   (fistStartTimeRef st) (isGrabbingRef st) (Some currentHandPos),
           [ShiftAll shiftX shiftY])
        else (st, [])
      else (st, [])
  | None =>
      (mkState (voxelsRef st) (fistStartTimeRef st) (isGrabbingRef st)
               (Some currentHandPos), [])
  end.

(** The key of the cell under a pixel position. *)
Definition pixelKey (p : Point.t) : string :=
  keyOf (Some (JS.floor (Point.x p / inject_Z gridSize)))
        (Some (JS.floor (Point.y p / inject_Z gridSize))).

(** The pinching branch: stamp the cell under the index tip. *)
Definition pinchLogic (mappedIndex : Point.t) (st : State) : State * list Cmd :=
  let key := pixelKey mappedIndex in
  (mkState (stamp key (voxelsRef st)) (fistStartTimeRef st)
           (isGrabbingRef st) (lastHandPosRef st),
   [Stamp key]).

(** The body of [multiHandLandmarks.forEach], once the landmarks are read. *)
Definition handStep (cv : Canvas.t) (t : Tips) (now : Z) (st : State)
  : State * list Cmd :=
  let st1 := fistLogic (isFist t) now st in
  if isGrabbingRef st1 then grabLogic (mapped cv (wrist t)) st1
  else if isPinching t then pinchLogic (mapped cv (indexTip t)) st1
  else (st1, []).

(** Reading the six landmarks.  A missing one is [undefined], and the
    first use of its [.x] throws before any ref is written: [None]. *)
Definition readTips (lm : list Point.t) : option Tips :=
  match lm !! 4%nat, lm !! 8%nat, lm !! 12%nat, lm !! 16%nat, lm !! 20%nat, lm !! 0%nat with
  | Some th, Some ix, Some mi, Some ri, Some pk, Some wr =>
      Some (mkTips th ix mi ri pk wr)
  | _, _, _, _, _, _ => None
  end.

(** [forEach] over the hands of a frame: the hands are processed in
    order against the same refs; a throw ends the callback and leaves
    the refs as the earlier hands wrote them. *)
Fixpoint forEachHand (cv : Canvas.t) (hands : list Hand) (st : State)
  : State * list Cmd :=
  match hands with
  | [] => (st, [])
  | h :: rest =>
      match readTips (landmarks h) with
      | Some t =>
          let (st1, cmds1) := handStep cv t (now h) st in
          let (st2, cmds2) := forEachHand cv rest st1 in
          (st2, cmds1 ++ cmds2)
      | None => (st, [])
      end
  end.

(** [onResults(results)].  The canvas is [None] when the ref is not set
    or has no 2d context: the callback returns at once.  A missing
    [multiHandLandmarks] is the empty list of hands.  Drawing does not
    write to the refs and is left out. *)
Definition onResults (canvas : option Canvas.t) (hands : list Hand) (st : State)
  : State * list Cmd :=
  match canvas with
  | None => (st, [])
  | Some cv =>
      match hands with
      | [] => (st, [])
      | _ :: _ => forEachHand cv hands st
      end
  end.

(** A run of the callback over successive frames. *)
Fixpoint runFrames (canvas : option Canvas.t) (frames : list (list Hand))
    (st : State) : State * list Cmd :=
  match frames with
  | [] => (st, [])
  | f :: rest =>
      let (st1, cmds1) := onResults canvas f st in
      let (st2, cmds2) := runFrames canvas rest st1 in
      (st2, cmds1 ++ cmds2)
  end.

(** ** Predicates on hands used in the statements *)

(** The reading from which the dwell of a run of fists is measured: the
    start of the timer when one is running, and otherwise the reading
    of the first hand [h0] of the run, which starts the timer. *)
Definition dwellStart (st : State) (h0 : Hand) : Z :=
  if falsy (fistStartTimeRef st) then now h0
  else numberOf (fistStartTimeRef st).

(** The command is a stamp. *)
Definition isStamp (c : Cmd) : bool :=
  match c with
  | Stamp _ => true
  | ShiftAll _ _ => false
  end.

(** The hand can be read and makes a fist. *)
Definition fistHand (h : Hand) : bool :=
  match readTips (landmarks h) with
  | Some t => isFist t
  | None => false
  end.

(** The hand can be read. *)
Definition readable (h : Hand) : bool :=
  match readTips (landmarks h) with
  | Some _ => true
  | None => false
  end.

(** Grabbing as the second [if] of step 4 sees it: already confirmed,
    or a running dwell timer that has passed 1000 ms. *)
Definition grabConfirmed (now : Z) (st : State) : bool :=
  isGrabbingRef st
  || (negb (falsy (fistStartTimeRef st))
      && (now - numberOf (fistStartTimeRef st) >? 1000)).

(** The wrist of the hand is within one cell of the anchor [a], in both
    directions, on the canvas [cv]. *)
Definition withinCell (cv : Canvas.t) (a : Point.t) (h : Hand) : bool :=
  match readTips (landmarks h) with
  | Some t =>
      let p := mapped cv (wrist t) in
      negb (JS.gtb (Qabs (Point.x p - Point.x a)) (inject_Z gridSize)
            || JS.gtb (Qabs (Point.y p - Point.y a)) (inject_Z gridSize))
  | None => false
  end.

(** ** Sample inputs *)

(** The canvas of the component: 1280 by 720 pixels. *)
Definition canvas1280 : Canvas.t := Canvas.mk 1280 720.

(** A landmark array of 21 points with the given tips; the points the
    callback does not read are put at the wrist. *)
Definition landmarksOf (t : Tips) : list Point.t :=
  let w := wrist t in
  [ w; w; w; w; thumbTip t; w; w; w; indexTip t; w; w; w; middleTip t;
    w; w; w; ringTip t; w; w; w; pinkyTip t ].

(** A closed hand: every tip and the wrist at the point [(x, y)]. *)
Definition closedHand (x y : Q) : Tips :=
  let p := Point.mk x y in mkTips p p p p p p.

(** An open hand: the wrist at the bottom, the tips spread at the top. *)
Definition openHand : Tips :=
  mkTips (Point.mk 0.2 0.4) (Point.mk 0.4 0.2) (Point.mk 0.5 0.2)
         (Point.mk 0.6 0.2) (Point.mk 0.7 0.3) (Point.mk 0.5 0.8).

(** A pinching hand: thumb and index tip together, away from the wrist. *)
Definition pinchHand : Tips :=
  mkTips (Point.mk 0.5 0.5) (Point.mk 0.5 0.503) (Point.mk 0.5 0.2)
         (Point.mk 0.6 0.2) (Point.mk 0.7 0.3) (Point.mk 0.5 0.8).

(** A state in the middle of a grab, anchored at pixel [(640, 360)]. *)
Definition grabbingState : State :=
  {| voxelsRef := ∅; fistStartTimeRef := Some 1000;
     isGrabbingRef := true; lastHandPosRef := Some (Point.mk 640 360) |}.

(** A fist that does not pinch: the four finger tips close to the wrist
    at [(x, y)], the thumb tip held away from the index tip. *)
Definition fistTips (x y : Q) : Tips :=
  mkTips (Point.mk (x + 0.1) y) (Point.mk x (y - 0.05))
         (Point.mk (x + 0.01) (y - 0.05)) (Point.mk (x + 0.02) (y - 0.05))
         (Point.mk (x + 0.03) (y - 0.04)) (Point.mk x y).

(** A hand of a frame with the given tips and clock reading. *)
Definition handAt (t : Tips) (now : Z) : Hand := mkHand (landmarksOf t) now.

(** A fist held still and sampled at 100, 600 and 1101 ms. *)
Definition shortFrames : list (list Hand) :=
  [ [handAt (fistTips 0.5 0.5) 100]; [handAt (fistTips 0.5 0.5) 600] ].

Definition dwellFrames : list (list Hand) :=
  shortFrames ++ [ [handAt (fistTips 0.5 0.5) 1101] ].

(** A grabbing fist that drifts to the left of the image, 12.8 pixels to
    the right of the canvas per frame, from the anchor (640, 360). *)
Definition driftFrames : list (list Hand) :=
  [ [handAt (fistTips 0.49 0.5) 3000]; [handAt (fistTips 0.48 0.5) 3040];
    [handAt (fistTips 0.47 0.5) 3080] ].

Definition crossingHand : Hand := handAt (fistTips 0.46 0.5) 3120.

(** The state in the middle of a grab, with one voxel in cell (0, 0). *)
Definition grabbingOneVoxel : State :=
  {| voxelsRef := encode {[ (0, 0) ]}; fistStartTimeRef := Some 1000;
     isGrabbingRef := true; lastHandPosRef := Some (Point.mk 640 360) |}.

(** Two fists that do not move: one with its wrist on the anchor of
    [grabbingState] (pixel (640, 360)), one 512 pixels to its right. *)
Definition stillFists : list Hand :=
  [ handAt (fistTips 0.5 0.5) 3000; handAt (fistTips 0.1 0.5) 3000 ].

(** A fist seen at 100 ms, then a frame without hands. *)
Definition fistThenGap : list (list Hand) :=
  [ [handAt (fistTips 0.5 0.5) 100]; [] ].

(** ** The rest of the component: drawing, clearing, sessions *)

(** [gx * gridSize] on a number that may be [NaN]. *)
Definition times (a : JS.num) (b : Z) : JS.num :=
  match a with
  | Some z => Some (z * b)
  | None => None
  end.

(** The arguments of one [fillRect(x, y, w, h)]. *)
Record Rect : Type := mkRect {
  rectX : JS.num;
  rectY : JS.num;
  rectW : Z;
  rectH : Z
}.

(** Step 1 of [onResults], for one key:
    [[gx, gy] = voxelKey.split(',').map(Number)] and then
    [fillRect(gx * gridSize, gy * gridSize, gridSize - 1, gridSize - 1)]. *)
Definition voxelRect (voxelKey : string) : Rect :=
  let parts := map JS.Number (JS.split_comma voxelKey) in
  let gx := JS.at_index parts 0 in
  let gy := JS.at_index parts 1 in
  mkRect (times gx gridSize) (times gy gridSize) (gridSize - 1) (gridSize - 1).

(** The rectangles filled by [voxelsRef.current.forEach].  (A JavaScript
    set is visited in insertion order, which the finite set does not
    keep; the statements below are about membership only.) *)
Definition drawVoxels (voxels : gset string) : list Rect :=
  voxelRect <$> elements voxels.

(** The pixel [p] is painted by the rectangle [r]. *)
Definition covers (r : Rect) (p : Point.t) : Prop :=
  match rectX r, rectY r with
  | Some x, Some y =>
      (inject_Z x <= Point.x p)%Q ∧ (Point.x p < inject_Z (x + rectW r))%Q
      ∧ (inject_Z y <= Point.y p)%Q ∧ (Point.y p < inject_Z (y + rectH r))%Q
  | _, _ => False
  end.

(** The effect of a logged command on the store. *)
Definition applyCmd (voxels : gset string) (c : Cmd) : gset string :=
  match c with
  | Stamp key => stamp key voxels
  | ShiftAll shiftX shiftY => shiftAll shiftX shiftY voxels
  end.

(** The logged commands, applied in order. *)
Definition replay (cmds : list Cmd) (voxels : gset string) : gset string :=
  foldl applyCmd voxels cmds.

(** What can happen to the component: a frame arrives, or the user
    presses the clear button. *)
Inductive Event : Type :=
| Frame (hands : list Hand)
| ClearAll.

(** [clearCanvas()] on the refs: only the store is written. *)
Definition clearCanvasRefs (st : State) : State :=
  mkState (clearCanvas (voxelsRef st)) (fistStartTimeRef st)
          (isGrabbingRef st) (lastHandPosRef st).

(** A session of the component, from the first event to the last. *)
Fixpoint runSession (canvas : option Canvas.t) (events : list Event)
    (st : State) : State :=
  match events with
  | [] => st
  | Frame hands :: rest =>
      runSession canvas rest (onResults canvas hands st).1
  | ClearAll :: rest => runSession canvas rest (clearCanvasRefs st)
  end.

(** The refs other than the store. *)
Definition gestureRefs (st : State) : option Z * bool * option Point.t :=
  (fistStartTimeRef st, isGrabbingRef st, lastHandPosRef st).

(** The refs agree with each other: an anchor is kept only while
    grabbing, and grabbing only with a timer that was started at a
    reading other than [0]. *)
Definition coherent (st : State) : Prop :=
  (is_Some (lastHandPosRef st) → isGrabbingRef st = true)
  ∧ (isGrabbingRef st = true →
     ∃ start, fistStartTimeRef st = Some start ∧ start ≠ 0).

(** * Properties *)

(** ** The JavaScript primitives *)

Section Primitives.

#[local] Open Scope string_scope.

Lemma ltb_lt (a b : Q) : JS.ltb a b = true ↔ (a < b)%Q.
Proof. unfold JS.ltb, Qlt. apply Z.ltb_lt. Qed.

Lemma ltb_nlt (a b : Q) : JS.ltb a b = false ↔ (b <= a)%Q.
Proof. unfold JS.ltb, Qle. rewrite Z.ltb_ge. reflexivity. Qed.

(** The squared form of the distance test is the test on the square
    root itself, taken in the real numbers. *)
Lemma sqrt_lt_squared (r c : Q) :
  (0 <= r)%Q → (0 < c)%Q →
  JS.sqrt_ltb r c = true ↔ (sqrt (Q2R r) < Q2R c)%R.
Proof.
  intros Hr Hc. unfold JS.sqrt_ltb. rewrite ltb_lt.
  apply Qle_Rle in Hr. apply Qlt_Rlt in Hc.
  replace (Q2R 0) with 0%R in Hr, Hc by (unfold Q2R; simpl; Lra.lra).
  assert (Hsq : sqrt (Q2R (c * c)) = Q2R c).
  { rewrite Q2R_mult. apply sqrt_square. Lra.lra. }
  split; intros H.
  - rewrite <- Hsq. apply sqrt_lt_1_alt. split; [exact Hr|].
    apply Qlt_Rlt. exact H.
  - apply Rlt_Qlt. rewrite <- Hsq in H.
    apply sqrt_lt_0_alt in H. exact H.
Qed.

Lemma digits_no_comma (s : string) (d : uint) :
  NilEmpty.uint_of_string s = Some d → JS.split_comma s = [s].
Proof.
  revert d. induction s as [|c s IH]; intros d H; [reflexivity|].
  simpl in H. destruct (NilEmpty.uint_of_string s) as [d'|] eqn:Hs;
    [|discriminate H].
  simpl. rewrite (IH d' eq_refl).
  apply uint_of_char_spec in H.
  destruct H as [[-> _]|[[-> _]|[[-> _]|[[-> _]|[[-> _]|
    [[-> _]|[[-> _]|[[-> _]|[[-> _]|[-> _]]]]]]]]]]; reflexivity.
Qed.

Lemma digits_of_uint (d : uint) :
  d ≠ Nil → ∃ c s, NilZero.string_of_uint d = String c s
    ∧ NilEmpty.uint_of_string (String c s) = Some d.
Proof.
  intros Hd. pose proof (NilEmpty.usu d) as Hu.
  destruct d; try congruence; simpl in *; eauto.
Qed.

(** The text of an integer has no comma in it. *)
Lemma split_comma_toString (z : Z) :
  JS.split_comma (JS.toString (Some z)) = [JS.toString (Some z)].
Proof.
  unfold JS.toString.
  destruct z as [|p|p]; [reflexivity| |]; simpl.
  - destruct (digits_of_uint (Pos.to_uint p)) as (c & s & -> & Hu).
    { apply Unsigned.to_uint_nonnil. }
    eapply digits_no_comma, Hu.
  - destruct (digits_of_uint (Pos.to_uint p)) as (c & s & Hs & Hu).
    { apply Unsigned.to_uint_nonnil. }
    rewrite Hs. change (JS.split_comma (String "-" (String c s)))
      with (match JS.split_comma (String c s) with
            | piece :: rest => String "-" piece :: rest
            | [] => [String "-" EmptyString]
            end).
    rewrite (digits_no_comma _ _ Hu). reflexivity.
Qed.

Lemma split_comma_nonempty (s : string) : JS.split_comma s ≠ [].
Proof.
  destruct s as [|c s]; simpl; [discriminate|].
  destruct (Ascii.eqb c ","); [discriminate|].
  destruct (JS.split_comma s); discriminate.
Qed.

Lemma split_comma_app (s1 s2 : string) :
  JS.split_comma s1 = [s1] →
  JS.split_comma (s1 ++ "," ++ s2) = s1 :: JS.split_comma s2.
Proof.
  induction s1 as [|c s1 IH]; intros H; [reflexivity|].
  simpl in H |- *. destruct (Ascii.eqb c ","); [discriminate H|].
  destruct (JS.split_comma s1) as [|piece rest] eqn:Hs.
  - exfalso. exact (split_comma_nonempty _ Hs).
  - injection H as -> ->. rewrite IH by reflexivity. reflexivity.
Qed.

(** Reading back the text of an integer gives the integer. *)
Lemma Number_toString (z : Z) : JS.Number (JS.toString (Some z)) = Some z.
Proof.
  unfold JS.toString.
  assert (Hi : NilZero.int_of_string (NilZero.string_of_int (Z.to_int z))
               = Some (Z.to_int z)).
  { apply NilZero.isi; destruct z; simpl; try discriminate;
      intros [= H]; revert H; apply Unsigned.to_uint_nonnil. }
  destruct (NilZero.string_of_int (Z.to_int z)) as [|a s] eqn:Hs;
    [discriminate Hi|].
  unfold JS.Number. destruct (Ascii.eqb_spec a "+") as [->|Hne].
  - exfalso. simpl in Hi.
    destruct (NilEmpty.uint_of_string s); discriminate Hi.
  - rewrite Hi. simpl. f_equal. apply DecimalZ.of_to.
Qed.

End Primitives.

(** ** The voxel store *)

Section Store.

Implicit Types (cells : gset (Z * Z)) (voxels : gset string).

(** A cell key reads back as its two coordinates. *)
Lemma read_cellKey (c : Z * Z) :
  map JS.Number (JS.split_comma (cellKey c)) = [Some c.1; Some c.2].
Proof.
  unfold cellKey, keyOf.
  rewrite split_comma_app by apply split_comma_toString.
  rewrite split_comma_toString. cbn [map].
  rewrite !Number_toString. reflexivity.
Qed.

#[export] Instance cellKey_inj : Inj (=) (=) cellKey.
Proof.
  intros [a b] [a' b'] H.
  pose proof (read_cellKey (a, b)) as H1.
  rewrite H, read_cellKey in H1. simpl in H1. congruence.
Qed.

#[export] Instance translate_inj dx dy : Inj (=) (=) (translate dx dy).
Proof.
  intros [a b] [a' b']. unfold translate. simpl.
  intros [= H1 H2]. f_equal; lia.
Qed.

(** On a cell key the loop body is the translation of the cell. *)
Lemma shiftKey_cellKey (dx dy : Z) (c : Z * Z) :
  shiftKey dx dy (cellKey c) = cellKey (translate dx dy c).
Proof. unfold shiftKey. rewrite read_cellKey. reflexivity. Qed.

Lemma shiftAll_encode (dx dy : Z) cells :
  shiftAll dx dy (encode cells) = encode (set_map (translate dx dy) cells).
Proof.
  unfold shiftAll, encode. apply set_eq. intros key.
  rewrite !elem_of_map. split.
  - intros (k & -> & Hk). apply elem_of_map in Hk as (c & -> & Hc).
    exists (translate dx dy c). split; [apply shiftKey_cellKey|].
    apply elem_of_map. eauto.
  - intros (c' & -> & Hc'). apply elem_of_map in Hc' as (c & -> & Hc).
    exists (cellKey c). split; [symmetry; apply shiftKey_cellKey|].
    apply elem_of_map. eauto.
Qed.

Lemma translate_translate (dx1 dy1 dx2 dy2 : Z) cells :
  set_map (translate dx2 dy2) (set_map (translate dx1 dy1) cells : gset (Z * Z))
  = (set_map (translate (dx1 + dx2) (dy1 + dy2)) cells : gset (Z * Z)).
Proof.
  apply set_eq. intros c. rewrite !elem_of_map. split.
  - intros (c1 & -> & Hc1). apply elem_of_map in Hc1 as (c0 & -> & Hc0).
    exists c0. split; [|done]. destruct c0. unfold translate. simpl.
    f_equal; lia.
  - intros (c0 & -> & Hc0). exists (translate dx1 dy1 c0). split.
    + destruct c0. unfold translate. simpl. f_equal; lia.
    + apply elem_of_map. eauto.
Qed.

Lemma translate_zero cells :
  (set_map (translate 0 0) cells : gset (Z * Z)) = cells.
Proof.
  apply set_eq. intros [a b]. rewrite elem_of_map. split.
  - intros ([a' b'] & [= -> ->] & H). simpl.
    rewrite !Z.add_0_r. exact H.
  - intros H. exists (a, b). split; [|done].
    unfold translate. simpl. f_equal; lia.
Qed.

(** The size of the image of a set under an injective function. *)
Lemma size_map_inj `{Countable A, Countable B} (f : A → B) `{!Inj (=) (=) f}
    (X : gset A) :
  size (set_map f X : gset B) = size X.
Proof.
  unfold set_map. rewrite size_list_to_set.
  - rewrite length_fmap. reflexivity.
  - apply NoDup_fmap_2; [done|]. apply NoDup_elements.
Qed.

(** A well-formed store is the store of a set of cells. *)
Lemma well_formed_encode voxels :
  well_formed voxels ↔ ∃ cells, voxels = encode cells.
Proof.
  split.
  - intros Hwf.
    exists (set_omap (λ key,
              match map JS.Number (JS.split_comma key) with
              | [Some a; Some b] => Some (a, b)
              | _ => None
              end) voxels).
    apply set_eq. intros key. unfold encode. rewrite elem_of_map. split.
    + intros Hk. destruct (Hwf key Hk) as [c ->]. exists c. split; [done|].
      apply elem_of_set_omap. exists (cellKey c). split; [done|].
      rewrite read_cellKey. by destruct c.
    + intros (c & -> & Hc). apply elem_of_set_omap in Hc as (k & Hk & Hr).
      destruct (Hwf k Hk) as [c' ->]. rewrite read_cellKey in Hr.
      destruct c'. simpl in Hr. by injection Hr as <-.
  - intros [cells ->] key Hk. unfold encode in Hk.
    apply elem_of_map in Hk as (c & -> & _). eauto.
Qed.

Lemma stamp_well_formed (c : Z * Z) voxels :
  well_formed voxels → well_formed (stamp (cellKey c) voxels).
Proof.
  intros Hwf key Hk. unfold stamp in Hk.
  apply elem_of_union in Hk as [Hk|Hk]; [|by apply Hwf].
  apply elem_of_singleton in Hk as ->. eauto.
Qed.

Lemma shiftAll_well_formed (dx dy : Z) voxels :
  well_formed voxels → well_formed (shiftAll dx dy voxels).
Proof.
  intros Hwf. apply well_formed_encode in Hwf as [cells ->].
  rewrite shiftAll_encode. apply well_formed_encode. eauto.
Qed.

End Store.

(** ** Frames and runs *)

Section Runs.

Variable cv : Canvas.t.

Lemma fistHand_readable (h : Hand) : fistHand h = true → readable h = true.
Proof. unfold fistHand, readable. by destruct (readTips _). Qed.

Lemma onResults_forEachHand (hands : list Hand) (st : State) :
  onResults (Some cv) hands st = forEachHand cv hands st.
Proof. by destruct hands. Qed.

Lemma forEachHand_app (l1 l2 : list Hand) (st : State) :
  forallb readable l1 = true →
  forEachHand cv (l1 ++ l2) st =
    let (st1, cmds1) := forEachHand cv l1 st in
    let (st2, cmds2) := forEachHand cv l2 st1 in
    (st2, cmds1 ++ cmds2).
Proof.
  revert st. induction l1 as [|h l1 IH]; intros st Hr; simpl.
  - by destruct (forEachHand cv l2 st).
  - simpl in Hr. apply andb_prop in Hr as [Hh Hr]. unfold readable in Hh.
    destruct (readTips (landmarks h)) as [t|]; [|discriminate].
    destruct (handStep cv t (now h) st) as [st1 cmds1].
    rewrite (IH st1 Hr).
    destruct (forEachHand cv l1 st1) as [st2 cmds2].
    destruct (forEachHand cv l2 st2) as [st3 cmds3].
    by rewrite app_assoc.
Qed.

Lemma runFrames_app (canvas : option Canvas.t) (f1 f2 : list (list Hand))
    (st : State) :
  runFrames canvas (f1 ++ f2) st =
    let (st1, cmds1) := runFrames canvas f1 st in
    let (st2, cmds2) := runFrames canvas f2 st1 in
    (st2, cmds1 ++ cmds2).
Proof.
  revert st. induction f1 as [|f f1 IH]; intros st; simpl.
  - by destruct (runFrames canvas f2 st).
  - destruct (onResults canvas f st) as [st1 cmds1]. rewrite IH.
    destruct (runFrames canvas f1 st1) as [st2 cmds2].
    destruct (runFrames canvas f2 st2) as [st3 cmds3].
    by rewrite app_assoc.
Qed.

(** When every hand can be read, a run of frames is the run of its
    hands one after the other. *)
Lemma runFrames_concat (frames : list (list Hand)) (st : State) :
  forallb (forallb readable) frames = true →
  runFrames (Some cv) frames st = forEachHand cv (concat frames) st.
Proof.
  revert st. induction frames as [|f frames IH]; intros st Hr; [done|].
  simpl in Hr. apply andb_prop in Hr as [Hf Hr]. cbn [runFrames concat].
  rewrite onResults_forEachHand, (forEachHand_app _ _ _ Hf).
  destruct (forEachHand cv f st) as [st1 cmds1]. by rewrite (IH st1 Hr).
Qed.

Lemma forallb_fist_readable (frames : list (list Hand)) :
  forallb (forallb fistHand) frames = true →
  forallb (forallb readable) frames = true.
Proof.
  rewrite !forallb_forall. intros H f Hf. specialize (H f Hf).
  rewrite forallb_forall in H |- *. intros h Hh.
  apply fistHand_readable, H, Hh.
Qed.

(** *** The dwell timer *)

Lemma fistLogic_grabbing (now : Z) (st : State) :
  isGrabbingRef (fistLogic true now st) = grabConfirmed now st.
Proof.
  unfold fistLogic, grabConfirmed.
  destruct (falsy (fistStartTimeRef st)); simpl.
  - by rewrite orb_false_r.
  - destruct (now - numberOf (fistStartTimeRef st) >? 1000); simpl.
    + by rewrite orb_true_r.
    + by rewrite orb_false_r.
Qed.

Lemma fistLogic_timer (t0 now : Z) (st : State) :
  t0 ≠ 0 → fistStartTimeRef st = Some t0 →
  fistStartTimeRef (fistLogic true now st) = Some t0.
Proof.
  intros Ht0 Hst. unfold fistLogic. rewrite Hst. simpl.
  destruct (t0 =? 0) eqn:E; [apply Z.eqb_eq in E; contradiction|].
  by destruct (_ >? _).
Qed.

Lemma fistLogic_start (now : Z) (st : State) :
  fistStartTimeRef st = None →
  fistLogic true now st =
    mkState (voxelsRef st) (Some now) (isGrabbingRef st) (lastHandPosRef st).
Proof. intros Hst. unfold fistLogic. by rewrite Hst. Qed.

Lemma fistLogic_voxels (fist : bool) (now : Z) (st : State) :
  voxelsRef (fistLogic fist now st) = voxelsRef st.
Proof.
  unfold fistLogic. destruct fist; [|done].
  destruct (falsy _); [done|]. by destruct (_ >? _).
Qed.

Lemma fistLogic_release (now : Z) (st : State) :
  fistLogic false now st = mkState (voxelsRef st) None false None.
Proof. reflexivity. Qed.

(** The two branches after the timer never write the timer or the
    grabbing flag. *)
Lemma handStep_timer (t : Tips) (now : Z) (st : State) :
  let st' := (handStep cv t now st).1 in
  fistStartTimeRef st' = fistStartTimeRef (fistLogic (isFist t) now st)
  ∧ isGrabbingRef st' = isGrabbingRef (fistLogic (isFist t) now st).
Proof.
  unfold handStep.
  destruct (isGrabbingRef (fistLogic (isFist t) now st)) eqn:Hg.
  - unfold grabLogic.
    destruct (lastHandPosRef _); [|by simpl].
    destruct (_ || _); [|by simpl].
    destruct (negb _ || negb _); by simpl.
  - destruct (isPinching t); by simpl.
Qed.

(** A run of fists on a running timer: the timer keeps its start, and
    grabbing is confirmed as soon as one reading is more than 1000 ms
    after the start. *)
Lemma fist_run (t0 : Z) (hands : list Hand) (st : State) :
  t0 ≠ 0 → fistStartTimeRef st = Some t0 →
  forallb fistHand hands = true →
  let st' := (forEachHand cv hands st).1 in
  fistStartTimeRef st' = Some t0
  ∧ isGrabbingRef st' =
      isGrabbingRef st || existsb (λ h, now h - t0 >? 1000) hands.
Proof.
  intros Ht0. revert st.
  induction hands as [|h hands IH]; intros st Hst Hf; simpl.
  - by rewrite orb_false_r.
  - simpl in Hf. apply andb_prop in Hf as [Hh Hf]. unfold fistHand in Hh.
    destruct (readTips (landmarks h)) as [t|]; [|discriminate].
    pose proof (handStep_timer t (now h) st) as [Hs Hg].
    rewrite Hh in Hs, Hg.
    destruct (handStep cv t (now h) st) as [st1 cmds1]. cbn [fst] in Hs, Hg.
    assert (Hs1 : fistStartTimeRef st1 = Some t0).
    { rewrite Hs. by apply fistLogic_timer. }
    specialize (IH st1 Hs1 Hf).
    destruct (forEachHand cv hands st1) as [st2 cmds2]. simpl in IH |- *.
    destruct IH as [IH1 IH2]. split; [done|].
    rewrite IH2, Hg, fistLogic_grabbing. unfold grabConfirmed.
    rewrite Hst. simpl.
    destruct (t0 =? 0) eqn:E; [apply Z.eqb_eq in E; contradiction|].
    simpl. by rewrite orb_assoc.
Qed.

(** A run of fists that starts with no timer: the first reading starts
    the timer. *)
Lemma dwell_from_rest (t0 : Z) (h0 : Hand) (hands : list Hand) (st : State) :
  now h0 = t0 → t0 ≠ 0 →
  fistStartTimeRef st = None → isGrabbingRef st = false →
  forallb fistHand (h0 :: hands) = true →
  isGrabbingRef (forEachHand cv (h0 :: hands) st).1 =
    existsb (λ h, now h - t0 >? 1000) hands.
Proof.
  intros Hn Ht0 Hst Hg Hf. simpl in Hf. apply andb_prop in Hf as [Hh Hf].
  simpl. unfold fistHand in Hh.
  destruct (readTips (landmarks h0)) as [t|]; [|discriminate].
  pose proof (handStep_timer t (now h0) st) as [Hs1 Hg1].
  rewrite Hh in Hs1, Hg1.
  destruct (handStep cv t (now h0) st) as [st1 cmds1]. cbn [fst] in Hs1, Hg1.
  rewrite (fistLogic_start _ _ Hst) in Hs1, Hg1.
  simpl in Hs1, Hg1. rewrite Hn in Hs1.
  pose proof (fist_run t0 hands st1 Ht0 Hs1 Hf) as [_ H].
  destruct (forEachHand cv hands st1) as [st2 cmds2]. simpl in H |- *.
  by rewrite H, Hg1, Hg.
Qed.

End Runs.

(** ** Dwell and grab over a run of frames *)

Section Grab.

Variable cv : Canvas.t.

Lemma forallb_concat {A} (f : A → bool) (ls : list (list A)) :
  forallb (forallb f) ls = forallb f (concat ls).
Proof.
  induction ls as [|l ls IH]; [done|].
  simpl. by rewrite forallb_app, IH.
Qed.

(** After a rest, grabbing is confirmed exactly when some later
    reading of a run of fists is more than 1000 ms after the first. *)
Lemma dwell_iff (frames : list (list Hand)) (st : State)
    (h0 : Hand) (rest : list Hand) :
  fistStartTimeRef st = None → isGrabbingRef st = false →
  forallb (forallb fistHand) frames = true →
  concat frames = h0 :: rest → now h0 ≠ 0 →
  isGrabbingRef (runFrames (Some cv) frames st).1 = true
  ↔ ∃ h, h ∈ rest ∧ 1000 < now h - now h0.
Proof.
  intros Hst Hg Hf Hc Ht0.
  rewrite runFrames_concat by by apply forallb_fist_readable.
  rewrite forallb_concat in Hf. rewrite Hc in Hf |- *.
  rewrite (dwell_from_rest cv (now h0) h0 rest st eq_refl Ht0 Hst Hg Hf).
  rewrite existsb_exists. split.
  - intros (h & Hin & Hgt). exists h. split; [by apply list_elem_of_In|].
    apply Z.gtb_lt in Hgt. lia.
  - intros (h & Hin & Hgt). exists h. split; [by apply list_elem_of_In|].
    apply Z.gtb_lt. lia.
Qed.

Lemma fistLogic_anchor (now : Z) (st : State) :
  lastHandPosRef (fistLogic true now st) = lastHandPosRef st.
Proof.
  unfold fistLogic. destruct (falsy _); [done|]. by destruct (_ >? _).
Qed.

Lemma fistLogic_keeps_grab (now : Z) (st : State) :
  isGrabbingRef st = true → isGrabbingRef (fistLogic true now st) = true.
Proof.
  intros Hg. rewrite fistLogic_grabbing. unfold grabConfirmed.
  by rewrite Hg.
Qed.

(** Past one cell, the rounded shift is not zero: the inner test of
    the grabbing branch never fails. *)
Lemma round_nonzero (d : Q) :
  JS.gtb (Qabs d) (inject_Z gridSize) = true →
  JS.round (d / inject_Z gridSize) ≠ 0.
Proof.
  unfold JS.gtb. rewrite ltb_lt. unfold JS.round, gridSize.
  change (inject_Z 40) with (40 # 1)%Q. intros H.
  destruct (Qlt_le_dec d 0) as [Hneg|Hpos].
  - pose proof (Qabs_neg d (Qlt_le_weak _ _ Hneg)) as E.
    pose proof (Qfloor_le (d / (40 # 1) + (1 # 2))) as Hfl.
    assert (Hlt : (inject_Z (Qfloor (d / (40 # 1) + (1 # 2))) < inject_Z 0)%Q).
    { eapply Qle_lt_trans; [exact Hfl|].
      change (inject_Z 0) with 0%Q. unfold Qdiv.
      change (/ (40 # 1))%Q with (1 # 40)%Q. Lqa.lra. }
    rewrite <- Zlt_Qlt in Hlt. lia.
  - pose proof (Qabs_pos d Hpos) as E.
    assert (Hle : (inject_Z 1 <= d / (40 # 1) + (1 # 2))%Q).
    { change (inject_Z 1) with 1%Q. unfold Qdiv.
      change (/ (40 # 1))%Q with (1 # 40)%Q. Lqa.lra. }
    apply Qfloor_resp_le in Hle. rewrite Qfloor_Z in Hle. lia.
Qed.

(** A fist within one cell of the anchor, while grabbing: nothing is
    issued and nothing but the timer may change. *)
Lemma quiet_step (h : Hand) (t : Tips) (a : Point.t) (st : State) :
  isGrabbingRef st = true → lastHandPosRef st = Some a →
  readTips (landmarks h) = Some t → isFist t = true →
  withinCell cv a h = true →
  handStep cv t (now h) st = (fistLogic true (now h) st, []).
Proof.
  intros Hg Ha Hr Hf Hw. unfold handStep. rewrite Hf.
  rewrite (fistLogic_keeps_grab _ _ Hg). unfold grabLogic.
  rewrite fistLogic_anchor, Ha.
  unfold withinCell in Hw. rewrite Hr in Hw.
  apply negb_true_iff in Hw. by rewrite Hw.
Qed.

Lemma quiet_run (hands : list Hand) (a : Point.t) (st : State) :
  isGrabbingRef st = true → lastHandPosRef st = Some a →
  forallb fistHand hands = true →
  forallb (withinCell cv a) hands = true →
  let r := forEachHand cv hands st in
  r.2 = [] ∧ isGrabbingRef r.1 = true
  ∧ lastHandPosRef r.1 = Some a ∧ voxelsRef r.1 = voxelsRef st.
Proof.
  revert st. induction hands as [|h hands IH]; intros st Hg Ha Hf Hw.
  - by simpl.
  - simpl in Hf, Hw. apply andb_prop in Hf as [Hfh Hf].
    apply andb_prop in Hw as [Hwh Hw]. cbn [forEachHand].
    unfold fistHand in Hfh.
    destruct (readTips (landmarks h)) as [t|] eqn:Hr; [|discriminate].
    rewrite (quiet_step h t a st Hg Ha Hr Hfh Hwh).
    specialize (IH (fistLogic true (now h) st)
                   (fistLogic_keeps_grab _ _ Hg)
                   (eq_trans (fistLogic_anchor _ _) Ha) Hf Hw).
    destruct (forEachHand cv hands (fistLogic true (now h) st))
      as [st2 cmds2].
    cbn [fst snd] in IH |- *. destruct IH as (-> & Hg2 & Ha2 & Hv2).
    by rewrite Hv2, fistLogic_voxels.
Qed.

(** A fist more than one cell away from the anchor, while grabbing:
    one shift by the rounded number of cells, and the anchor moves to
    the wrist. *)
Lemma crossing_step (t : Tips) (now : Z) (a : Point.t) (st : State) :
  isGrabbingRef st = true → lastHandPosRef st = Some a →
  isFist t = true →
  let p := mapped cv (wrist t) in
  let dx := (Point.x p - Point.x a)%Q in
  let dy := (Point.y p - Point.y a)%Q in
  let shiftX := JS.round (dx / inject_Z gridSize) in
  let shiftY := JS.round (dy / inject_Z gridSize) in
  (inject_Z gridSize < Qabs dx ∨ inject_Z gridSize < Qabs dy)%Q →
  handStep cv t now st =
    (mkState (shiftAll shiftX shiftY (voxelsRef st))
             (fistStartTimeRef (fistLogic true now st)) true (Some p),
     [ShiftAll shiftX shiftY]).
Proof.
  intros Hg Ha Hf p dx dy shiftX shiftY Hcross. unfold handStep.
  rewrite Hf, (fistLogic_keeps_grab _ _ Hg). unfold grabLogic.
  rewrite fistLogic_anchor, Ha. fold p dx dy shiftX shiftY.
  assert (Hor : JS.gtb (Qabs dx) (inject_Z gridSize)
                || JS.gtb (Qabs dy) (inject_Z gridSize) = true).
  { apply orb_true_iff. unfold JS.gtb. rewrite !ltb_lt. exact Hcross. }
  rewrite Hor.
  assert (Hnz : negb (shiftX =? 0) || negb (shiftY =? 0) = true).
  { apply orb_true_iff in Hor as [H|H]; apply round_nonzero in H;
      apply orb_true_iff; [left|right];
      apply negb_true_iff, Z.eqb_neq; exact H. }
  rewrite Hnz, fistLogic_voxels, (fistLogic_keeps_grab _ _ Hg).
  reflexivity.
Qed.

End Grab.

(** ** What the model stands on *)

Section Model.

Variable cv : Canvas.t.

Lemma getDistanceSq_nonneg (p1 p2 : Point.t) : (0 <= getDistanceSq p1 p2)%Q.
Proof.
  assert (Hsq : ∀ a : Q, (0 <= a * a)%Q).
  { intros [n d]. unfold Qle, Qmult. simpl. rewrite Z.mul_1_r.
    apply Z.square_nonneg. }
  unfold getDistanceSq, JS.pow2.
  pose proof (Hsq (Point.x p1 - Point.x p2)%Q) as Hx.
  pose proof (Hsq (Point.y p1 - Point.y p2)%Q) as Hy.
  Lqa.lra.
Qed.

(** The pinch test of the model is the test of the source on the
    distance itself. *)
Lemma isPinching_sqrt (t : Tips) :
  isPinching t = true
  ↔ (sqrt (Q2R (getDistanceSq (thumbTip t) (indexTip t))) < Q2R 0.04)%R.
Proof.
  unfold isPinching. apply sqrt_lt_squared; [apply getDistanceSq_nonneg|].
  reflexivity.
Qed.

(** The fist test of the model is the test of the source on the four
    distances. *)
Lemma isFist_sqrt (t : Tips) :
  isFist t = true
  ↔ Forall (λ tip, (sqrt (Q2R (getDistanceSq tip (wrist t))) < Q2R 0.15)%R)
      [indexTip t; middleTip t; ringTip t; pinkyTip t].
Proof.
  unfold isFist, fingerDists. cbn [forallb].
  rewrite !andb_true_iff, !Forall_cons, Forall_nil.
  rewrite !sqrt_lt_squared by (apply getDistanceSq_nonneg || reflexivity).
  tauto.
Qed.

Lemma withinCell_spec (a : Point.t) (h : Hand) :
  withinCell cv a h = true
  ↔ ∃ t, readTips (landmarks h) = Some t
      ∧ (Qabs (Point.x (mapped cv (wrist t)) - Point.x a)
           <= inject_Z gridSize)%Q
      ∧ (Qabs (Point.y (mapped cv (wrist t)) - Point.y a)
           <= inject_Z gridSize)%Q.
Proof.
  unfold withinCell. destruct (readTips (landmarks h)) as [t|].
  - rewrite negb_true_iff, orb_false_iff. unfold JS.gtb.
    rewrite !ltb_nlt. split.
    + intros [H1 H2]. by exists t.
    + intros (t' & [= <-] & H1 & H2). done.
  - split; [discriminate|]. by intros (t & Hr & _).
Qed.

(** The key stamped by a pinch is the key of a cell. *)
Lemma pixelKey_cellKey (p : Point.t) :
  pixelKey p = cellKey (JS.floor (Point.x p / inject_Z gridSize),
                        JS.floor (Point.y p / inject_Z gridSize)).
Proof. reflexivity. Qed.

(** Every store that the callback can build is well formed. *)
Lemma handStep_well_formed (t : Tips) (now : Z) (st : State) :
  well_formed (voxelsRef st) →
  well_formed (voxelsRef (handStep cv t now st).1).
Proof.
  intros Hwf. unfold handStep.
  assert (Hwf1 : well_formed (voxelsRef (fistLogic (isFist t) now st)))
    by by rewrite fistLogic_voxels.
  destruct (isGrabbingRef _).
  - unfold grabLogic. destruct (lastHandPosRef _); [|done].
    destruct (_ || _); [|done]. destruct (negb _ || negb _); [|done].
    by apply shiftAll_well_formed.
  - destruct (isPinching t); [|done].
    unfold pinchLogic. cbn [fst voxelsRef]. rewrite pixelKey_cellKey.
    by apply stamp_well_formed.
Qed.

Lemma forEachHand_well_formed (hands : list Hand) (st : State) :
  well_formed (voxelsRef st) →
  well_formed (voxelsRef (forEachHand cv hands st).1).
Proof.
  revert st. induction hands as [|h hands IH]; intros st Hwf; [done|].
  cbn [forEachHand]. destruct (readTips (landmarks h)) as [t|]; [|done].
  pose proof (handStep_well_formed t (now h) st Hwf) as Hwf1.
  destruct (handStep cv t (now h) st) as [st1 cmds1].
  specialize (IH st1 Hwf1).
  by destruct (forEachHand cv hands st1) as [st2 cmds2].
Qed.

Lemma runFrames_well_formed (frames : list (list Hand)) (st : State) :
  well_formed (voxelsRef st) →
  well_formed (voxelsRef (runFrames (Some cv) frames st).1).
Proof.
  revert st. induction frames as [|f frames IH]; intros st Hwf; [done|].
  cbn [runFrames]. rewrite onResults_forEachHand.
  pose proof (forEachHand_well_formed f st Hwf) as Hwf1.
  destruct (forEachHand cv f st) as [st1 cmds1].
  specialize (IH st1 Hwf1).
  by destruct (runFrames (Some cv) frames st1) as [st2 cmds2].
Qed.

Lemma initialState_well_formed : well_formed (voxelsRef initialState).
Proof. intros key Hk. by apply not_elem_of_empty in Hk. Qed.

(** A clock reading of [0] does not start the timer for good: the next
    fist starts it again.  The statements on the dwell therefore take
    the clock past its zero. *)
Example timer_restarts_at_zero :
  fistStartTimeRef
    (fistLogic true 1500 (fistLogic true 0 initialState)) = Some 1500
  ∧ isGrabbingRef
      (fistLogic true 1500 (fistLogic true 0 initialState)) = false.
Proof. split; reflexivity. Qed.

End Model.

(** * The claims *)

(** ** The voxel store *)

(** C7.  Shifting is an action of the integer translations on the
    stores of cells: two shifts in a row are the shift by the sums, the
    shift by [(0, 0)] changes nothing, and a shift replaces, in one
    step, the key of every cell [(x, y)] by the key of [(x+dx, y+dy)]. *)
Theorem shiftAll_group_action (cells : gset (Z * Z)) (dx1 dy1 dx2 dy2 : Z) :
  shiftAll dx2 dy2 (shiftAll dx1 dy1 (encode cells))
    = shiftAll (dx1 + dx2) (dy1 + dy2) (encode cells)
  ∧ shiftAll 0 0 (encode cells) = encode cells
  ∧ (∀ key, key ∈ shiftAll dx1 dy1 (encode cells)
       ↔ ∃ x y, (x, y) ∈ cells ∧ key = cellKey (x + dx1, y + dy1)).
Proof.
  split; [|split].
  - by rewrite !shiftAll_encode, translate_translate.
  - by rewrite shiftAll_encode, translate_zero.
  - intros key. rewrite shiftAll_encode. unfold encode.
    rewrite elem_of_map. split.
    + intros (c & -> & Hc). apply elem_of_map in Hc as ([x y] & -> & Hc).
      by exists x, y.
    + intros (x & y & Hc & ->). exists (translate dx1 dy1 (x, y)).
      split; [done|]. apply elem_of_map. by exists (x, y).
Qed.

(** C8.  Stamping is idempotent: a second stamp of the same key changes
    nothing, a stamp of a key that is already in the store changes
    nothing, and two pinches on the same pixel leave the store of one. *)
Theorem stamp_idempotent (key : string) (voxels : gset string) :
  stamp key (stamp key voxels) = stamp key voxels
  ∧ (key ∈ voxels → stamp key voxels = voxels)
  ∧ (∀ p st, voxelsRef (pinchLogic p (pinchLogic p st).1).1
             = voxelsRef (pinchLogic p st).1).
Proof.
  unfold pinchLogic, stamp. cbn [fst voxelsRef]. split; [|split].
  - by rewrite (assoc_L (∪)), (idemp_L (∪)).
  - intros Hin. by apply subseteq_union_1_L, singleton_subseteq_l.
  - intros p st. by rewrite (assoc_L (∪)), (idemp_L (∪)).
Qed.

Lemma stamp_idempotent_witness :
  stamp "16,9" (stamp "16,9" {[ "16,9"%string ]}) = stamp "16,9" {[ "16,9"%string ]}
  ∧ stamp "16,9" {[ "16,9"%string ]} = ({[ "16,9"%string ]} : gset string).
Proof.
  destruct (stamp_idempotent "16,9" {[ "16,9"%string ]}) as (H1 & H2 & _).
  split; [exact H1|]. apply H2. apply elem_of_singleton. reflexivity.
Defined.

(** C10.  A shift keeps the number of occupied cells of a well-formed
    store: no two cells merge and none is lost. *)
Theorem shiftAll_preserves_size (voxels : gset string) (dx dy : Z) :
  well_formed voxels → size (shiftAll dx dy voxels) = size voxels.
Proof.
  intros Hwf. apply well_formed_encode in Hwf as [cells ->].
  rewrite shiftAll_encode. unfold encode.
  rewrite (size_map_inj cellKey), (size_map_inj (translate dx dy)).
  symmetry. apply (size_map_inj cellKey).
Qed.

Lemma shiftAll_preserves_size_witness :
  well_formed (encode {[ (0, 0); (1, 2) ]})
  ∧ size (shiftAll 3 (-4) (encode {[ (0, 0); (1, 2) ]}))
    = size (encode {[ (0, 0); (1, 2) ]}).
Proof.
  assert (Hwf : well_formed (encode {[ (0, 0); (1, 2) ]})).
  { apply well_formed_encode. eexists. reflexivity. }
  split; [exact Hwf|]. apply (shiftAll_preserves_size _ 3 (-4)), Hwf.
Defined.

(** Keys that are not cell keys can merge: the hypothesis of C10 is needed. *)
Example shiftAll_merges_malformed :
  size (shiftAll 1 1 {[ "a"%string; "b"%string ]}) = 1%nat
  ∧ size ({[ "a"%string; "b"%string ]} : gset string) = 2%nat.
Proof. split; vm_compute; reflexivity. Qed.

(** ** Gestures within one frame *)

Lemma readTips_landmarksOf (t : Tips) : readTips (landmarksOf t) = Some t.
Proof. by destruct t. Qed.

Lemma onResults_one (cv : Canvas.t) (h : Hand) (t : Tips) (st : State) :
  readTips (landmarks h) = Some t →
  onResults (Some cv) [h] st = handStep cv t (now h) st.
Proof.
  intros Hr. cbn [onResults forEachHand]. rewrite Hr.
  destruct (handStep cv t (now h) st) as [st1 cmds1].
  by rewrite app_nil_r.
Qed.

(** C9.  The pinch scenario: thumb tip at (0.50, 0.50), index tip at
    (0.50, 0.503), canvas 1280 by 720, on a hand that is not grabbing
    when the callback tests [isGrabbingRef].  The distance between the
    tips, measured on the landmarks as they come, is 0.003 and below
    0.04; the index tip is at pixel (640, 362.16); the stamped cell is
    (16, 9). *)
Theorem pinch_scenario (mi ri pk wr : Point.t) (h : Hand) (st : State) :
  let t := mkTips (Point.mk 0.5 0.5) (Point.mk 0.5 0.503) mi ri pk wr in
  readTips (landmarks h) = Some t →
  isGrabbingRef (fistLogic (isFist t) (now h) st) = false →
  let px := mapped canvas1280 (indexTip t) in
  let out := onResults (Some canvas1280) [h] st in
  sqrt (Q2R (getDistanceSq (thumbTip t) (indexTip t))) = Q2R 0.003
  ∧ (sqrt (Q2R (getDistanceSq (thumbTip t) (indexTip t))) < Q2R 0.04)%R
  ∧ isPinching t = true
  ∧ (Point.x px == 640)%Q ∧ (Point.y px == 362.16)%Q
  ∧ JS.floor (Point.x px / inject_Z gridSize) = 16
  ∧ JS.floor (Point.y px / inject_Z gridSize) = 9
  ∧ out.2 = [Stamp "16,9"]
  ∧ voxelsRef out.1 = stamp "16,9" (voxelsRef st)
  ∧ "16,9"%string ∈ voxelsRef out.1
  ∧ (∀ key, key ∈ voxelsRef out.1 ↔ key = "16,9"%string ∨ key ∈ voxelsRef st).
Proof.
  intros t Hr Hg px out.
  assert (Hp : isPinching t = true) by (vm_compute; reflexivity).
  assert (Hk : pixelKey px = "16,9"%string) by (vm_compute; reflexivity).
  split; [|split; [by apply isPinching_sqrt|split; [exact Hp|]]].
  - assert (E : (getDistanceSq (thumbTip t) (indexTip t) == 0.003 * 0.003)%Q)
      by (vm_compute; reflexivity).
    rewrite (Qeq_eqR _ _ E), Q2R_mult. apply sqrt_square.
    replace 0%R with (Q2R 0) by (unfold Q2R; simpl; Lra.lra).
    apply Qle_Rle. vm_compute. discriminate.
  - split; [vm_compute; reflexivity|]. split; [vm_compute; reflexivity|].
    split; [vm_compute; reflexivity|]. split; [vm_compute; reflexivity|].
    subst out. rewrite (onResults_one _ _ _ _ Hr). unfold handStep.
    rewrite Hg, Hp. unfold pinchLogic. fold px. rewrite Hk.
    split; [reflexivity|]. cbn [fst voxelsRef]. rewrite fistLogic_voxels.
    split; [reflexivity|]. unfold stamp. split.
    + apply elem_of_union_l. by apply elem_of_singleton.
    + intros key. by rewrite elem_of_union, elem_of_singleton.
Qed.

Lemma pinch_scenario_witness :
  (onResults (Some canvas1280) [handAt pinchHand 5] initialState).2
  = [Stamp "16,9"]
  ∧ "16,9"%string
    ∈ voxelsRef (onResults (Some canvas1280) [handAt pinchHand 5]
                           initialState).1.
Proof.
  destruct (pinch_scenario (Point.mk 0.5 0.2) (Point.mk 0.6 0.2)
              (Point.mk 0.7 0.3) (Point.mk 0.5 0.8)
              (handAt pinchHand 5) initialState)
    as (_ & _ & _ & _ & _ & _ & _ & Hcmd & _ & Hin & _);
    [vm_compute; reflexivity | vm_compute; reflexivity |].
  split; [exact Hcmd|exact Hin].
Defined.

(** C1, as the code has it.  On a frame whose hand is both a fist and a
    pinch, no stamp is issued when grabbing is confirmed (it was already,
    or the timer has passed 1000 ms); while the fist is still dwelling
    the frame stamps the cell under the index tip. *)
Theorem fist_and_pinch (cv : Canvas.t) (h : Hand) (t : Tips) (st : State) :
  readTips (landmarks h) = Some t →
  isFist t = true → isPinching t = true →
  let out := onResults (Some cv) [h] st in
  let key := pixelKey (mapped cv (indexTip t)) in
  (grabConfirmed (now h) st = true →
     isGrabbingRef out.1 = true ∧ ∀ k, Stamp k ∉ out.2)
  ∧ (grabConfirmed (now h) st = false →
     isGrabbingRef out.1 = false
     ∧ out.2 = [Stamp key]
     ∧ voxelsRef out.1 = stamp key (voxelsRef st)).
Proof.
  intros Hr Hf Hp out key. subst out.
  rewrite (onResults_one _ _ _ _ Hr). unfold handStep.
  rewrite Hf, Hp, fistLogic_grabbing. split; intros Hc; rewrite Hc.
  - pose proof (fistLogic_grabbing (now h) st) as Hg. rewrite Hc in Hg.
    unfold grabLogic. rewrite Hg.
    destruct (lastHandPosRef _).
    + destruct (_ || _); [destruct (negb _ || negb _)|]; cbn [fst snd].
      * split; [done|]. intros k Hk. apply list_elem_of_singleton in Hk.
        discriminate Hk.
      * split; [done|]. intros k Hk. by apply not_elem_of_nil in Hk.
      * split; [done|]. intros k Hk. by apply not_elem_of_nil in Hk.
    + cbn [fst snd]. split; [done|].
      intros k Hk. by apply not_elem_of_nil in Hk.
  - pose proof (fistLogic_grabbing (now h) st) as Hg. rewrite Hc in Hg.
    unfold pinchLogic. cbn [fst snd voxelsRef isGrabbingRef].
    split; [exact Hg|]. split; [done|]. by rewrite fistLogic_voxels.
Qed.

Lemma fist_and_pinch_witness :
  isGrabbingRef
    (onResults (Some canvas1280) [handAt (closedHand 0.5 0.5) 2500]
               grabbingState).1 = true
  ∧ isGrabbingRef
      (onResults (Some canvas1280) [handAt (closedHand 0.5 0.5) 5]
                 initialState).1 = false.
Proof.
  split.
  - destruct (fist_and_pinch canvas1280 (handAt (closedHand 0.5 0.5) 2500)
                (closedHand 0.5 0.5) grabbingState eq_refl eq_refl eq_refl)
      as [Hyes _].
    exact (proj1 (Hyes eq_refl)).
  - destruct (fist_and_pinch canvas1280 (handAt (closedHand 0.5 0.5) 5)
                (closedHand 0.5 0.5) initialState eq_refl eq_refl eq_refl)
      as [_ Hno].
    exact (proj1 (Hno eq_refl)).
Defined.

(** C1, as the spec has it, fails: a closed hand seen for the first time
    is a fist and a pinch, and the frame stamps the cell (16, 9). *)
Lemma fist_and_pinch_stamps :
  ¬ (∀ (cv : Canvas.t) (h : Hand) (t : Tips) (st : State),
       readTips (landmarks h) = Some t →
       isFist t = true → isPinching t = true →
       ∀ k, Stamp k ∉ (onResults (Some cv) [h] st).2).
Proof.
  intros H.
  apply (H canvas1280 (handAt (closedHand 0.5 0.5) 5) (closedHand 0.5 0.5)
           initialState eq_refl eq_refl eq_refl "16,9"%string).
  vm_compute. left.
Qed.

(** C2, as the code has it.  A frame with no hand changes nothing: the
    store, the timer, the grabbing flag and the anchor stay as they
    were, and no command is issued; the same holds for any number of
    such frames in a row. *)
Theorem zero_hands_noop (canvas : option Canvas.t) (st : State) (n : nat) :
  onResults canvas [] st = (st, [])
  ∧ runFrames canvas (replicate n []) st = (st, []).
Proof.
  assert (H1 : ∀ s, onResults canvas [] s = (s, [])) by (by destruct canvas).
  split; [apply H1|].
  induction n as [|n IH]; [done|].
  cbn [replicate runFrames]. by rewrite H1, IH.
Qed.

(** C2, as the spec has it, fails: a frame with no hand in the middle of
    a grab leaves the timer, the flag and the anchor set. *)
Lemma zero_hands_keeps_grab :
  ¬ (∀ (canvas : option Canvas.t) (st : State),
       let st' := (onResults canvas [] st).1 in
       fistStartTimeRef st' = None
       ∧ isGrabbingRef st' = false
       ∧ lastHandPosRef st' = None).
Proof.
  intros H. destruct (H (Some canvas1280) grabbingState) as (_ & Hg & _).
  discriminate Hg.
Qed.

(** C3, as the code has it.  The hands of a frame are processed in order
    against the one set of refs: a frame of two hands is the frame of
    the first hand followed by the frame of the second, which starts
    from the state the first hand left. *)
Theorem two_hands_share_state (cv : Canvas.t) (h1 h2 : Hand) (st : State) :
  readable h1 = true →
  onResults (Some cv) [h1; h2] st = runFrames (Some cv) [[h1]; [h2]] st.
Proof.
  intros Hr. cbn [runFrames]. rewrite !onResults_forEachHand.
  change [h1; h2] with ([h1] ++ [h2]).
  rewrite forEachHand_app by (cbn [forallb]; by rewrite Hr).
  destruct (forEachHand cv [h1] st) as [st1 cmds1].
  rewrite onResults_forEachHand.
  destruct (forEachHand cv [h2] st1) as [st2 cmds2].
  by rewrite app_nil_r.
Qed.

Lemma two_hands_share_state_witness :
  readable (handAt openHand 5000) = true
  ∧ onResults (Some canvas1280)
      [handAt openHand 5000; handAt (fistTips 0.4 0.5) 5000] grabbingState
    = runFrames (Some canvas1280)
        [[handAt openHand 5000]; [handAt (fistTips 0.4 0.5) 5000]]
        grabbingState.
Proof.
  split; [reflexivity|].
  apply (two_hands_share_state canvas1280). reflexivity.
Defined.

(** C3, as the spec has it, fails: in the middle of a grab, a fist that
    has moved by three cells shifts the store when it is alone in the
    frame, and does nothing when an open hand is processed before it. *)
Lemma two_hands_interfere :
  ¬ (∀ (cv : Canvas.t) (h1 h2 : Hand) (st : State),
       readable h1 = true → readable h2 = true →
       (onResults (Some cv) [h1; h2] st).2
       = (onResults (Some cv) [h1] st).2 ++ (onResults (Some cv) [h2] st).2).
Proof.
  intros H.
  specialize (H canvas1280 (handAt openHand 5000)
                (handAt (fistTips 0.4 0.5) 5000) grabbingState
                eq_refl eq_refl).
  vm_compute in H. discriminate H.
Qed.

Example two_hands_interfere_values :
  (onResults (Some canvas1280) [handAt (fistTips 0.4 0.5) 5000]
             grabbingState).2 = [ShiftAll 3 0]
  ∧ (onResults (Some canvas1280)
       [handAt openHand 5000; handAt (fistTips 0.4 0.5) 5000]
       grabbingState).2 = []
  ∧ isGrabbingRef
      (onResults (Some canvas1280) [handAt (fistTips 0.4 0.5) 5000]
                 grabbingState).1 = true
  ∧ isGrabbingRef
      (onResults (Some canvas1280)
         [handAt openHand 5000; handAt (fistTips 0.4 0.5) 5000]
         grabbingState).1 = false.
Proof. repeat split; vm_compute; reflexivity. Qed.

(** ** Gestures over time *)

(** A run of fists from any state: the timer runs from [dwellStart],
    and grabbing is set as soon as one reading is more than 1000 ms
    after it. *)
Lemma dwell_from_any (cv : Canvas.t) (h0 : Hand) (rest : list Hand)
    (st : State) :
  forallb fistHand (h0 :: rest) = true → dwellStart st h0 ≠ 0 →
  let st' := (forEachHand cv (h0 :: rest) st).1 in
  fistStartTimeRef st' = Some (dwellStart st h0)
  ∧ isGrabbingRef st' =
      isGrabbingRef st
      || existsb (λ h, now h - dwellStart st h0 >? 1000) (h0 :: rest).
Proof.
  unfold dwellStart. intros Hf Hd.
  destruct (falsy (fistStartTimeRef st)) eqn:Hfz.
  - cbn [forallb] in Hf. apply andb_prop in Hf as [Hh Hf].
    cbn [forEachHand existsb]. unfold fistHand in Hh.
    destruct (readTips (landmarks h0)) as [t|]; [|discriminate].
    pose proof (handStep_timer cv t (now h0) st) as [Hs1 Hg1].
    rewrite Hh in Hs1, Hg1. unfold fistLogic in Hs1, Hg1.
    rewrite Hfz in Hs1, Hg1.
    cbn [fistStartTimeRef isGrabbingRef] in Hs1, Hg1.
    destruct (handStep cv t (now h0) st) as [st1 cmds1]. cbn [fst] in Hs1, Hg1.
    pose proof (fist_run cv (now h0) rest st1 Hd Hs1 Hf) as [H1 H2].
    destruct (forEachHand cv rest st1) as [st2 cmds2]. cbn [fst] in H1, H2 |- *.
    split; [done|]. rewrite H2, Hg1.
    replace (now h0 - now h0) with 0 by lia. done.
  - destruct (fistStartTimeRef st) as [s|] eqn:Hst; [|discriminate].
    change (numberOf (Some s)) with s in Hd |- *.
    exact (fist_run cv s (h0 :: rest) st Hd Hst Hf).
Qed.

(** C4, as the code has it.  Dwell gating.  In a run of frames in which
    every hand is a fist, the dwell is measured from the start of the
    timer: the reading of the first fist when no timer is running, and
    the start left by an earlier fist when one still is (frames without
    hands do not stop it).  The timer keeps that start through the run;
    grabbing, if it was not set, stays unset while every reading is at
    most 1000 ms after the start, and is set once a reading is more
    than 1000 ms after it, whatever the number of frames in between. *)
Theorem dwell_gating (cv : Canvas.t) (frames : list (list Hand)) (st : State)
    (h0 : Hand) (rest : list Hand) :
  forallb (forallb fistHand) frames = true →
  concat frames = h0 :: rest → dwellStart st h0 ≠ 0 →
  let start := dwellStart st h0 in
  let st' := (runFrames (Some cv) frames st).1 in
  fistStartTimeRef st' = Some start
  ∧ (fistStartTimeRef st = None → start = now h0)
  ∧ (isGrabbingRef st = false →
     (∀ h, h ∈ h0 :: rest → now h - start ≤ 1000) →
     isGrabbingRef st' = false)
  ∧ ((∃ h, h ∈ h0 :: rest ∧ 1000 < now h - start) →
     isGrabbingRef st' = true).
Proof.
  intros Hf Hc Hd start st'. subst st'.
  rewrite runFrames_concat by by apply forallb_fist_readable.
  rewrite forallb_concat in Hf. rewrite Hc in Hf |- *.
  destruct (dwell_from_any cv h0 rest st Hf Hd) as [Hs Hg]. fold start in Hs, Hg.
  split; [exact Hs|]. split.
  { intros Hn. subst start. unfold dwellStart. by rewrite Hn. }
  split.
  - intros Hng Hall. rewrite Hg, Hng. cbn [orb].
    destruct (existsb _ _) eqn:E; [|done].
    apply existsb_exists in E as (h & Hin & Hgt).
    apply list_elem_of_In in Hin. specialize (Hall h Hin).
    apply Z.gtb_lt in Hgt. lia.
  - intros (h & Hin & Hgt). rewrite Hg. apply orb_true_iff. right.
    apply existsb_exists. exists h. split; [by apply list_elem_of_In|].
    apply Z.gtb_lt. lia.
Qed.

Lemma dwell_gating_witness :
  isGrabbingRef (runFrames (Some canvas1280) shortFrames initialState).1 = false
  ∧ isGrabbingRef (runFrames (Some canvas1280) dwellFrames initialState).1 = true
  ∧ isGrabbingRef
      (runFrames (Some canvas1280) [[handAt (fistTips 0.5 0.5) 5000]]
         (runFrames (Some canvas1280) fistThenGap initialState).1).1 = true.
Proof.
  split; [|split].
  - apply (dwell_gating canvas1280 shortFrames initialState
             (handAt (fistTips 0.5 0.5) 100)
             [handAt (fistTips 0.5 0.5) 600]);
      [vm_compute; reflexivity | reflexivity | vm_compute; lia | reflexivity | ].
    intros h Hin. apply list_elem_of_In in Hin.
    destruct Hin as [<-|[<-|[]]]; vm_compute; discriminate.
  - apply (dwell_gating canvas1280 dwellFrames initialState
             (handAt (fistTips 0.5 0.5) 100)
             [handAt (fistTips 0.5 0.5) 600; handAt (fistTips 0.5 0.5) 1101]);
      [vm_compute; reflexivity | reflexivity | vm_compute; lia | ].
    exists (handAt (fistTips 0.5 0.5) 1101). split; [|vm_compute; reflexivity].
    apply list_elem_of_In. simpl. right. right. left. reflexivity.
  - apply (dwell_gating canvas1280 [[handAt (fistTips 0.5 0.5) 5000]]
             (runFrames (Some canvas1280) fistThenGap initialState).1
             (handAt (fistTips 0.5 0.5) 5000) []);
      [vm_compute; reflexivity | reflexivity | vm_compute; lia | ].
    exists (handAt (fistTips 0.5 0.5) 5000). split; [|vm_compute; reflexivity].
    apply list_elem_of_In. simpl. left. reflexivity.
Defined.

(** C4, as the spec has it, fails: a fist seen at 100 ms and lost for a
    frame leaves its timer running; the fist seen next, at 5000 ms, is
    the first of its run and sets grabbing at once, with no time
    elapsed since that first frame. *)
Lemma dwell_survives_gap :
  ¬ (∀ (cv : Canvas.t) (before frames : list (list Hand))
       (h0 : Hand) (rest : list Hand),
       forallb (forallb fistHand) frames = true →
       concat frames = h0 :: rest → now h0 ≠ 0 →
       (∀ h, h ∈ rest → now h - now h0 < 1000) →
       isGrabbingRef
         (runFrames (Some cv) frames
            (runFrames (Some cv) (before ++ [[]]) initialState).1).1 = false).
Proof.
  intros H.
  specialize (H canvas1280 [[handAt (fistTips 0.5 0.5) 100]]
                [[handAt (fistTips 0.5 0.5) 5000]]
                (handAt (fistTips 0.5 0.5) 5000) []).
  assert (E : isGrabbingRef
                (runFrames (Some canvas1280) [[handAt (fistTips 0.5 0.5) 5000]]
                   (runFrames (Some canvas1280)
                      ([[handAt (fistTips 0.5 0.5) 100]] ++ [[]])
                      initialState).1).1 = true)
    by (vm_compute; reflexivity).
  rewrite H in E; [discriminate E| vm_compute; reflexivity | reflexivity
                  | vm_compute; lia | ].
  intros h Hin. by apply not_elem_of_nil in Hin.
Qed.

(** C5.  Release cancels the grab.  One frame whose hand is not a fist
    clears the timer, the grabbing flag and the anchor, whatever they
    were; in the run of fists that follows, grabbing is set again only
    by a reading more than 1000 ms after the first of that run. *)
Theorem release_cancels_grab (cv : Canvas.t) (h : Hand) (t : Tips) (st : State) :
  readTips (landmarks h) = Some t → isFist t = false →
  let st' := (onResults (Some cv) [h] st).1 in
  fistStartTimeRef st' = None
  ∧ isGrabbingRef st' = false
  ∧ lastHandPosRef st' = None
  ∧ ∀ (frames : list (list Hand)) (h0 : Hand) (rest : list Hand),
      forallb (forallb fistHand) frames = true →
      concat frames = h0 :: rest → now h0 ≠ 0 →
      isGrabbingRef (runFrames (Some cv) frames st').1 = true
      ↔ ∃ h', h' ∈ rest ∧ 1000 < now h' - now h0.
Proof.
  intros Hr Hf st'.
  assert (H : fistStartTimeRef st' = None ∧ isGrabbingRef st' = false
              ∧ lastHandPosRef st' = None).
  { subst st'. rewrite (onResults_one _ _ _ _ Hr). unfold handStep.
    rewrite Hf, fistLogic_release. cbn [isGrabbingRef].
    by destruct (isPinching t). }
  destruct H as (H1 & H2 & H3). repeat (split; [done|]).
  intros frames h0 rest Hfs Hc Ht0. by apply dwell_iff.
Qed.

Lemma release_cancels_grab_witness :
  isGrabbingRef grabbingState = true
  ∧ isGrabbingRef
      (onResults (Some canvas1280) [handAt openHand 3000] grabbingState).1
    = false
  ∧ lastHandPosRef
      (onResults (Some canvas1280) [handAt openHand 3000] grabbingState).1
    = None.
Proof.
  destruct (release_cancels_grab canvas1280 (handAt openHand 3000) openHand
              grabbingState eq_refl eq_refl) as (_ & Hg & Ha & _).
  split; [reflexivity|]. split; [exact Hg|exact Ha].
Defined.

(** C6, as the code has it.  Sub-cell hysteresis.  While grabbing, with
    the one anchor of the component at [a]: the frames in which the
    wrist of every hand stays within one cell of [a] in both directions
    issue nothing and leave the anchor and the store as they were; the
    first hand whose wrist is more than one cell away from [a] issues
    exactly one shift, by the rounded number of cells between the wrist
    and [a], which is not zero; every cell of the store moves by it,
    and the anchor moves to the wrist. *)
Theorem sub_cell_hysteresis (cv : Canvas.t) (frames : list (list Hand))
    (h : Hand) (t : Tips) (a : Point.t) (st : State) :
  isGrabbingRef st = true → lastHandPosRef st = Some a →
  forallb (forallb fistHand) frames = true →
  forallb (forallb (withinCell cv a)) frames = true →
  readTips (landmarks h) = Some t → isFist t = true →
  let p := mapped cv (wrist t) in
  let dx := (Point.x p - Point.x a)%Q in
  let dy := (Point.y p - Point.y a)%Q in
  let shiftX := JS.round (dx / inject_Z gridSize) in
  let shiftY := JS.round (dy / inject_Z gridSize) in
  (inject_Z gridSize < Qabs dx ∨ inject_Z gridSize < Qabs dy)%Q →
  let quiet := runFrames (Some cv) frames st in
  let out := onResults (Some cv) [h] quiet.1 in
  quiet.2 = []
  ∧ lastHandPosRef quiet.1 = Some a
  ∧ voxelsRef quiet.1 = voxelsRef st
  ∧ out.2 = [ShiftAll shiftX shiftY]
  ∧ voxelsRef out.1 = shiftAll shiftX shiftY (voxelsRef st)
  ∧ lastHandPosRef out.1 = Some p
  ∧ (runFrames (Some cv) (frames ++ [[h]]) st).2 = [ShiftAll shiftX shiftY]
  ∧ (shiftX ≠ 0 ∨ shiftY ≠ 0)
  ∧ (∀ x y, cellKey (x, y) ∈ voxelsRef st →
       cellKey (x + shiftX, y + shiftY) ∈ voxelsRef out.1)
  ∧ (∀ cells, voxelsRef st = encode cells →
       voxelsRef out.1 = encode (set_map (translate shiftX shiftY) cells)).
Proof.
  intros Hg Ha Hf Hw Hr Hfh p dx dy shiftX shiftY Hcross quiet out.
  assert (Hq : quiet.2 = [] ∧ isGrabbingRef quiet.1 = true
               ∧ lastHandPosRef quiet.1 = Some a
               ∧ voxelsRef quiet.1 = voxelsRef st).
  { subst quiet. rewrite runFrames_concat by by apply forallb_fist_readable.
    rewrite forallb_concat in Hf, Hw. by apply quiet_run. }
  destruct Hq as (Hq1 & Hq2 & Hq3 & Hq4).
  assert (Ho : out = (mkState (shiftAll shiftX shiftY (voxelsRef st))
                        (fistStartTimeRef (fistLogic true (now h) quiet.1))
                        true (Some p),
                      [ShiftAll shiftX shiftY])).
  { subst out. rewrite (onResults_one _ _ _ _ Hr), <- Hq4.
    by apply crossing_step. }
  repeat (split; [done|]).
  rewrite Ho. repeat (split; [done|]). split.
  { rewrite runFrames_app. fold quiet.
    destruct quiet as [stq cmdsq]. cbn [fst snd] in *. subst cmdsq.
    cbn [runFrames]. fold out. rewrite Ho. reflexivity. }
  cbn [fst voxelsRef]. split; [|split].
  - destruct Hcross as [H|H]; [left|right];
      apply round_nonzero; unfold JS.gtb; by apply ltb_lt.
  - intros x y Hin. unfold shiftAll. apply elem_of_map.
    exists (cellKey (x, y)). split; [|done].
    by rewrite shiftKey_cellKey.
  - intros cells ->. apply shiftAll_encode.
Qed.

Lemma sub_cell_hysteresis_witness :
  (runFrames (Some canvas1280) driftFrames grabbingOneVoxel).2 = []
  ∧ (runFrames (Some canvas1280) (driftFrames ++ [[crossingHand]])
       grabbingOneVoxel).2 = [ShiftAll 1 0]
  ∧ cellKey (1, 0)
    ∈ voxelsRef
        (onResults (Some canvas1280) [crossingHand]
           (runFrames (Some canvas1280) driftFrames grabbingOneVoxel).1).1.
Proof.
  destruct (sub_cell_hysteresis canvas1280 driftFrames crossingHand
              (fistTips 0.46 0.5) (Point.mk 640 360) grabbingOneVoxel)
    as (Hq & _ & _ & _ & _ & _ & Hrun & _ & Hcell & _);
    [ reflexivity | reflexivity | vm_compute; reflexivity
    | vm_compute; reflexivity | reflexivity | vm_compute; reflexivity
    | left; vm_compute; reflexivity | ].
  split; [exact Hq|]. split; [rewrite Hrun; vm_compute; reflexivity|].
  apply (Hcell 0 0). unfold grabbingOneVoxel, encode. cbn [voxelsRef].
  apply elem_of_map. exists (0, 0). split; [reflexivity|].
  by apply elem_of_singleton.
Defined.

(** C6, as the spec has it, fails with a second fist in view: two fists
    that do not move at all, the anchor on the wrist of the first, and
    yet every hand after the first shifts the store, because each wrist
    is measured from the anchor the other hand has just set. *)
Lemma still_fists_shift :
  ¬ (∀ (cv : Canvas.t) (h1 h2 : Hand) (t1 : Tips) (st : State),
       isGrabbingRef st = true →
       readTips (landmarks h1) = Some t1 →
       lastHandPosRef st = Some (mapped cv (wrist t1)) →
       fistHand h1 = true → fistHand h2 = true →
       (runFrames (Some cv) [[h1; h2]; [h1; h2]] st).2 = []).
Proof.
  intros H.
  specialize (H canvas1280 (handAt (fistTips 0.5 0.5) 3000)
                (handAt (fistTips 0.1 0.5) 3000) (fistTips 0.5 0.5)
                (mkState ∅ (Some 1000) true
                   (Some (mapped canvas1280 (wrist (fistTips 0.5 0.5)))))
                eq_refl eq_refl eq_refl).
  assert (Hf1 : fistHand (handAt (fistTips 0.5 0.5) 3000) = true)
    by (vm_compute; reflexivity).
  assert (Hf2 : fistHand (handAt (fistTips 0.1 0.5) 3000) = true)
    by (vm_compute; reflexivity).
  specialize (H Hf1 Hf2). vm_compute in H. discriminate H.
Qed.

Example still_fists_shift_values :
  (runFrames (Some canvas1280) [stillFists; stillFists] grabbingState).2
  = [ShiftAll 13 0; ShiftAll (-13) 0; ShiftAll 13 0]
  ∧ (runFrames (Some canvas1280)
       [[handAt (fistTips 0.5 0.5) 3000]; [handAt (fistTips 0.5 0.5) 3000]]
       grabbingState).2 = []
  ∧ (runFrames (Some canvas1280)
       [[handAt (fistTips 0.1 0.5) 3000]; [handAt (fistTips 0.1 0.5) 3000]]
       (mkState ∅ (Some 1000) true (Some (Point.mk 1152 360)))).2 = [].
Proof. repeat split; vm_compute; reflexivity. Qed.

(** * Further properties of the component *)

(** ** Keys and drawing *)

Lemma voxelRect_cellKey (c : Z * Z) :
  voxelRect (cellKey c)
  = mkRect (Some (c.1 * gridSize)) (Some (c.2 * gridSize))
           (gridSize - 1) (gridSize - 1).
Proof. unfold voxelRect. by rewrite read_cellKey. Qed.

(** X1.  Keys round-trip: splitting a key written for the cell
    [(gx, gy)] at the comma and reading the pieces as numbers gives
    [gx] and [gy] back, for negative coordinates too; so two keys are
    equal exactly when the cells are. *)
Theorem key_round_trip (gx gy gx' gy' : Z) :
  map JS.Number (JS.split_comma (keyOf (Some gx) (Some gy)))
    = [Some gx; Some gy]
  ∧ (keyOf (Some gx) (Some gy) = keyOf (Some gx') (Some gy')
     ↔ gx = gx' ∧ gy = gy').
Proof.
  split; [exact (read_cellKey (gx, gy))|]. split.
  - intros H. pose proof (read_cellKey (gx, gy)) as H1.
    unfold cellKey in H1. cbn [fst snd] in H1. rewrite H in H1.
    pose proof (read_cellKey (gx', gy')) as H2.
    unfold cellKey in H2. cbn [fst snd] in H2.
    rewrite H2 in H1. by injection H1 as -> ->.
  - by intros [-> ->].
Qed.

(** X2.  What is drawn for a store of cells: exactly one square per
    cell, 39 pixels wide and high, with its corner at 40 times the cell
    coordinates; no square is filled twice, and there are as many
    squares as cells. *)
Theorem drawVoxels_cells (cells : gset (Z * Z)) :
  (∀ r, r ∈ drawVoxels (encode cells)
        ↔ ∃ x y, (x, y) ∈ cells
                 ∧ r = mkRect (Some (x * 40)) (Some (y * 40)) 39 39)
  ∧ NoDup (drawVoxels (encode cells))
  ∧ length (drawVoxels (encode cells)) = size cells.
Proof.
  unfold drawVoxels. split; [|split].
  - intros r. rewrite list_elem_of_fmap. split.
    + intros (key & -> & Hk). apply elem_of_elements in Hk.
      unfold encode in Hk. apply elem_of_map in Hk as ([x y] & -> & Hc).
      exists x, y. split; [done|]. by rewrite voxelRect_cellKey.
    + intros (x & y & Hc & ->). exists (cellKey (x, y)). split.
      * by rewrite voxelRect_cellKey.
      * apply elem_of_elements. unfold encode. apply elem_of_map.
        by exists (x, y).
  - apply NoDup_fmap_2_strong; [|apply NoDup_elements].
    intros k1 k2 H1 H2 E. apply elem_of_elements in H1, H2.
    unfold encode in H1, H2.
    apply elem_of_map in H1 as ([x1 y1] & -> & _).
    apply elem_of_map in H2 as ([x2 y2] & -> & _).
    rewrite !voxelRect_cellKey in E. unfold gridSize in E.
    cbn [fst snd] in E. injection E as Ex Ey.
    f_equal. f_equal; lia.
  - rewrite length_fmap. change (length (elements (encode cells)))
      with (size (encode cells)).
    unfold encode. apply (size_map_inj cellKey).
Qed.

(** X3.  The squares of two cells never overlap: a pixel painted by the
    squares of two cell keys belongs to one and the same cell. *)
Theorem voxel_squares_disjoint (c1 c2 : Z * Z) (p : Point.t) :
  covers (voxelRect (cellKey c1)) p → covers (voxelRect (cellKey c2)) p →
  c1 = c2.
Proof.
  rewrite !voxelRect_cellKey. unfold covers, gridSize. cbn [rectX rectY rectW rectH].
  destruct c1 as [a1 b1], c2 as [a2 b2]. cbn [fst snd].
  intros (Hx1 & Hx1' & Hy1 & Hy1') (Hx2 & Hx2' & Hy2 & Hy2').
  assert (Hlt : ∀ u v w : Z, ∀ q : Q,
             (inject_Z u <= q)%Q → (q < inject_Z w)%Q → u < w).
  { intros u v w q H1 H2. rewrite Zlt_Qlt. eapply Qle_lt_trans; eauto. }
  pose proof (Hlt _ 0 _ _ Hx1 Hx2'). pose proof (Hlt _ 0 _ _ Hx2 Hx1').
  pose proof (Hlt _ 0 _ _ Hy1 Hy2'). pose proof (Hlt _ 0 _ _ Hy2 Hy1').
  f_equal; lia.
Qed.

Lemma voxel_squares_disjoint_witness :
  covers (voxelRect (cellKey (16, 9))) (Point.mk 650 365)
  ∧ (16, 9) = ((16, 9) : Z * Z).
Proof.
  assert (H : covers (voxelRect (cellKey (16, 9))) (Point.mk 650 365)).
  { vm_compute. repeat split; discriminate. }
  split; [exact H|]. exact (voxel_squares_disjoint (16, 9) (16, 9) _ H H).
Defined.

(** X4.  The cell stamped for a pixel is the cell the pixel lies in:
    its square starts at most 40 pixels before the pixel in each
    direction, and never after it. *)
Theorem stamped_cell_under_pixel (p : Point.t) :
  ∃ x y : Z,
    voxelRect (pixelKey p) = mkRect (Some x) (Some y) 39 39
    ∧ (inject_Z x <= Point.x p)%Q ∧ (Point.x p < inject_Z (x + gridSize))%Q
    ∧ (inject_Z y <= Point.y p)%Q ∧ (Point.y p < inject_Z (y + gridSize))%Q.
Proof.
  assert (Hfl : ∀ q : Q,
             (inject_Z (JS.floor (q / inject_Z gridSize) * gridSize) <= q)%Q
             ∧ (q < inject_Z (JS.floor (q / inject_Z gridSize) * gridSize
                              + gridSize))%Q).
  { intros q. unfold JS.floor, gridSize.
    pose proof (Qfloor_le (q / inject_Z 40)) as H1.
    pose proof (Qlt_floor (q / inject_Z 40)) as H2.
    set (f := Qfloor (q / inject_Z 40)) in *.
    rewrite inject_Z_plus, inject_Z_mult. rewrite inject_Z_plus in H2.
    change (inject_Z 40) with (40 # 1)%Q in *.
    change (inject_Z 1) with 1%Q in *.
    unfold Qdiv in H1, H2. change (/ (40 # 1))%Q with (1 # 40)%Q in *.
    split; Lqa.lra. }
  exists (JS.floor (Point.x p / inject_Z gridSize) * gridSize),
         (JS.floor (Point.y p / inject_Z gridSize) * gridSize).
  split.
  - by rewrite pixelKey_cellKey, voxelRect_cellKey.
  - destruct (Hfl (Point.x p)), (Hfl (Point.y p)). done.
Qed.

(** X5.  A shift moves every square by whole cells: the square of a
    shifted cell key is the square of the key, moved by [dx] and [dy]
    times 40 pixels, with the same size. *)
Theorem shift_moves_squares (dx dy : Z) (c : Z * Z) :
  let r := voxelRect (cellKey c) in
  let r' := voxelRect (shiftKey dx dy (cellKey c)) in
  rectX r' = JS.add (rectX r) (dx * gridSize)
  ∧ rectY r' = JS.add (rectY r) (dy * gridSize)
  ∧ rectW r' = rectW r ∧ rectH r' = rectH r.
Proof.
  cbn zeta. rewrite shiftKey_cellKey, !voxelRect_cellKey.
  destruct c as [a b]. unfold translate. cbn [fst snd rectX rectY rectW rectH JS.add].
  repeat split; f_equal; lia.
Qed.

(** ** Gestures and geometry *)

(** X8.  A landmark inside the image is stamped inside the grid of the
    canvas, borders included: its column is between 0 and
    [width / 40] and its row between 0 and [height / 40]. *)
Theorem stamped_cell_bounds (cv : Canvas.t) (p : Point.t) :
  (0 <= Point.x p)%Q → (Point.x p <= 1)%Q →
  (0 <= Point.y p)%Q → (Point.y p <= 1)%Q →
  0 ≤ Canvas.width cv → 0 ≤ Canvas.height cv →
  let px := mapped cv p in
  0 ≤ JS.floor (Point.x px / inject_Z gridSize) ≤ Canvas.width cv / gridSize
  ∧ 0 ≤ JS.floor (Point.y px / inject_Z gridSize) ≤ Canvas.height cv / gridSize.
Proof.
  intros Hx0 Hx1 Hy0 Hy1 Hw Hh px.
  assert (Hb : ∀ (q : Q) (w : Z), (0 <= q)%Q → (q <= inject_Z w)%Q →
                 0 ≤ JS.floor (q / inject_Z gridSize) ≤ w / gridSize).
  { intros q w H0 H1. unfold JS.floor, gridSize.
    rewrite (Zdiv_Qdiv w 40). change 0 with (Qfloor 0) at 1.
    split; apply Qfloor_resp_le; unfold Qdiv;
      change (/ inject_Z 40)%Q with (1 # 40)%Q; Lqa.lra. }
  rewrite Zle_Qle in Hw, Hh. change (inject_Z 0) with 0%Q in Hw, Hh.
  split; apply Hb; subst px; unfold mapped; cbn [Point.x Point.y].
  - apply Qmult_le_0_compat; [Lqa.lra|done].
  - rewrite <- (Qmult_1_l (inject_Z (Canvas.width cv))) at 2.
    apply Qmult_le_compat_r; [Lqa.lra|done].
  - by apply Qmult_le_0_compat.
  - rewrite <- (Qmult_1_l (inject_Z (Canvas.height cv))) at 2.
    by apply Qmult_le_compat_r.
Qed.

Lemma stamped_cell_bounds_witness :
  0 ≤ JS.floor (Point.x (mapped canvas1280 (Point.mk 0 1)) / inject_Z gridSize)
    ≤ 32
  ∧ 0 ≤ JS.floor (Point.y (mapped canvas1280 (Point.mk 0 1)) / inject_Z gridSize)
      ≤ 18.
Proof.
  apply (stamped_cell_bounds canvas1280 (Point.mk 0 1));
    vm_compute; discriminate.
Defined.

(** The border is reached: a landmark on the left edge of the image is
    stamped in column 32, whose square starts at pixel 1280, just past
    the right edge of the canvas. *)
Example left_edge_column :
  voxelRect (pixelKey (mapped canvas1280 (Point.mk 0 0.5)))
  = mkRect (Some 1280) (Some 360) 39 39.
Proof. vm_compute. reflexivity. Qed.

(** ** What a hand can and cannot do *)

Lemma round_half (q : Q) :
  (inject_Z (JS.round q) - (1 # 2) <= q)%Q
  ∧ (q < inject_Z (JS.round q) + (1 # 2))%Q.
Proof.
  unfold JS.round. pose proof (Qfloor_le (q + (1 # 2))) as H1.
  pose proof (Qlt_floor (q + (1 # 2))) as H2.
  rewrite inject_Z_plus in H2. change (inject_Z 1) with 1%Q in H2.
  split; Lqa.lra.
Qed.

Lemma round_half_cell (d : Q) :
  (inject_Z (JS.round (d / inject_Z gridSize)) * 40 - 20 <= d)%Q
  ∧ (d < inject_Z (JS.round (d / inject_Z gridSize)) * 40 + 20)%Q.
Proof.
  destruct (round_half (d / inject_Z gridSize)) as [H1 H2].
  set (s := JS.round (d / inject_Z gridSize)) in *.
  unfold gridSize, Qdiv in H1, H2.
  change (/ inject_Z 40)%Q with (1 # 40)%Q in H1, H2.
  split; Lqa.lra.
Qed.

(** X9.  Grabbing is switched on and kept by fists only: after a hand
    is processed, grabbing is set exactly when the hand is a fist and
    grabbing was set before or the running timer has passed 1000 ms. *)
Theorem grabbing_after_hand (cv : Canvas.t) (t : Tips) (now : Z) (st : State) :
  isGrabbingRef (handStep cv t now st).1 = true
  ↔ isFist t = true ∧ grabConfirmed now st = true.
Proof.
  destruct (handStep_timer cv t now st) as [_ Hg]. rewrite Hg.
  destruct (isFist t).
  - rewrite fistLogic_grabbing. tauto.
  - rewrite fistLogic_release. cbn [isGrabbingRef]. split; [done|].
    by intros [? _].
Qed.

(** X10.  A shift is issued only by a confirmed fist whose wrist is
    more than one cell away from the anchor.  The shift is then the
    movement since the anchor rounded to whole cells: it is not zero,
    it differs from the movement by at most half a cell in each
    direction, and the anchor moves to the wrist. *)
Theorem shift_only_when (cv : Canvas.t) (t : Tips) (now : Z) (st : State)
    (sx sy : Z) :
  ShiftAll sx sy ∈ (handStep cv t now st).2 →
  isFist t = true ∧ grabConfirmed now st = true
  ∧ ∃ a, lastHandPosRef st = Some a
    ∧ let p := mapped cv (wrist t) in
      let dx := (Point.x p - Point.x a)%Q in
      let dy := (Point.y p - Point.y a)%Q in
      (inject_Z gridSize < Qabs dx ∨ inject_Z gridSize < Qabs dy)%Q
      ∧ (sx ≠ 0 ∨ sy ≠ 0)
      ∧ (inject_Z sx * 40 - 20 <= dx)%Q ∧ (dx < inject_Z sx * 40 + 20)%Q
      ∧ (inject_Z sy * 40 - 20 <= dy)%Q ∧ (dy < inject_Z sy * 40 + 20)%Q
      ∧ lastHandPosRef (handStep cv t now st).1 = Some p
      ∧ voxelsRef (handStep cv t now st).1 = shiftAll sx sy (voxelsRef st).
Proof.
  intros Hin.
  assert (Hg : isGrabbingRef (fistLogic (isFist t) now st) = true).
  { destruct (isGrabbingRef (fistLogic (isFist t) now st)) eqn:E; [done|].
    exfalso. unfold handStep in Hin. rewrite E in Hin.
    destruct (isPinching t); cbn [snd pinchLogic] in Hin.
    - apply list_elem_of_singleton in Hin. discriminate Hin.
    - by apply not_elem_of_nil in Hin. }
  assert (Hf : isFist t = true).
  { destruct (isFist t); [done|]. by rewrite fistLogic_release in Hg. }
  rewrite Hf in Hg. pose proof Hg as Hc. rewrite fistLogic_grabbing in Hc.
  split; [done|]. split; [done|].
  unfold handStep in Hin |- *. rewrite Hf, Hg in Hin |- *.
  unfold grabLogic in Hin |- *. rewrite fistLogic_anchor in Hin |- *.
  destruct (lastHandPosRef st) as [a|];
    [|cbn [snd] in Hin; by apply not_elem_of_nil in Hin].
  exists a. split; [done|]. cbn zeta.
  set (dx := (Point.x (mapped cv (wrist t)) - Point.x a)%Q) in *.
  set (dy := (Point.y (mapped cv (wrist t)) - Point.y a)%Q) in *.
  destruct (JS.gtb (Qabs dx) (inject_Z gridSize)
            || JS.gtb (Qabs dy) (inject_Z gridSize)) eqn:Hor;
    [|cbn [snd] in Hin; by apply not_elem_of_nil in Hin].
  destruct (negb (JS.round (dx / inject_Z gridSize) =? 0)
            || negb (JS.round (dy / inject_Z gridSize) =? 0)) eqn:Hnz;
    [|cbn [snd] in Hin; by apply not_elem_of_nil in Hin].
  cbn [fst snd lastHandPosRef voxelsRef] in Hin |- *.
  apply list_elem_of_singleton in Hin. injection Hin as -> ->.
  split.
  { apply orb_true_iff in Hor. unfold JS.gtb in Hor.
    by rewrite !ltb_lt in Hor. }
  split.
  { apply orb_true_iff in Hnz as [H|H]; apply negb_true_iff, Z.eqb_neq in H;
      [by left|by right]. }
  destruct (round_half_cell dx) as [? ?], (round_half_cell dy) as [? ?].
  rewrite fistLogic_voxels. done.
Qed.

Lemma shift_only_when_witness :
  ShiftAll 1 0 ∈ (handStep canvas1280 (fistTips 0.46 0.5) 3120 grabbingState).2
  ∧ isFist (fistTips 0.46 0.5) = true
  ∧ grabConfirmed 3120 grabbingState = true.
Proof.
  assert (Hin : ShiftAll 1 0
                ∈ (handStep canvas1280 (fistTips 0.46 0.5) 3120 grabbingState).2).
  { vm_compute. left. }
  destruct (shift_only_when canvas1280 (fistTips 0.46 0.5) 3120 grabbingState
              1 0 Hin) as (Hf & Hc & _).
  split; [exact Hin|]. split; [exact Hf|exact Hc].
Defined.

(** X11.  A stamp is issued only by a pinching hand that is not
    grabbing, and only for the cell under its index tip; the key is then
    in the store. *)
Theorem stamp_only_when (cv : Canvas.t) (t : Tips) (now : Z) (st : State)
    (key : string) :
  Stamp key ∈ (handStep cv t now st).2 →
  isPinching t = true
  ∧ isGrabbingRef (handStep cv t now st).1 = false
  ∧ key = pixelKey (mapped cv (indexTip t))
  ∧ key ∈ voxelsRef (handStep cv t now st).1.
Proof.
  unfold handStep. intros Hin.
  destruct (isGrabbingRef (fistLogic (isFist t) now st)) eqn:Hg.
  - exfalso. unfold grabLogic in Hin.
    destruct (lastHandPosRef _);
      [|cbn [snd] in Hin; by apply not_elem_of_nil in Hin].
    destruct (_ || _);
      [|cbn [snd] in Hin; by apply not_elem_of_nil in Hin].
    destruct (negb _ || negb _); cbn [snd] in Hin.
    + apply list_elem_of_singleton in Hin. discriminate Hin.
    + by apply not_elem_of_nil in Hin.
  - destruct (isPinching t);
      [|cbn [snd] in Hin; by apply not_elem_of_nil in Hin].
    unfold pinchLogic in Hin |- *. cbn [fst snd isGrabbingRef voxelsRef] in *.
    apply list_elem_of_singleton in Hin. injection Hin as ->.
    repeat split; [done|]. unfold stamp. apply elem_of_union_l.
    by apply elem_of_singleton.
Qed.

Lemma stamp_only_when_witness :
  Stamp "16,9" ∈ (handStep canvas1280 pinchHand 5 initialState).2
  ∧ isPinching pinchHand = true.
Proof.
  assert (Hin : Stamp "16,9"
                ∈ (handStep canvas1280 pinchHand 5 initialState).2).
  { vm_compute. left. }
  split; [exact Hin|].
  exact (proj1 (stamp_only_when canvas1280 pinchHand 5 initialState _ Hin)).
Defined.

(** ** The log of commands *)

Lemma replay_app (c1 c2 : list Cmd) (voxels : gset string) :
  replay (c1 ++ c2) voxels = replay c2 (replay c1 voxels).
Proof. unfold replay. apply foldl_app. Qed.

Lemma handStep_replay (cv : Canvas.t) (t : Tips) (now : Z) (st : State) :
  voxelsRef (handStep cv t now st).1
  = replay (handStep cv t now st).2 (voxelsRef st).
Proof.
  unfold handStep.
  rewrite <- (fistLogic_voxels (isFist t) now st).
  destruct (isGrabbingRef _).
  - unfold grabLogic. destruct (lastHandPosRef _); [|done].
    destruct (_ || _); [|done]. by destruct (negb _ || negb _).
  - by destruct (isPinching t).
Qed.

Lemma handStep_one_cmd (cv : Canvas.t) (t : Tips) (now : Z) (st : State) :
  (length (handStep cv t now st).2 ≤ 1)%nat.
Proof.
  unfold handStep. destruct (isGrabbingRef _).
  - unfold grabLogic. destruct (lastHandPosRef _); [|simpl; lia].
    destruct (_ || _); [|simpl; lia].
    destruct (negb _ || negb _); simpl; lia.
  - destruct (isPinching t); simpl; lia.
Qed.

Lemma forEachHand_replay (cv : Canvas.t) (hands : list Hand) (st : State) :
  voxelsRef (forEachHand cv hands st).1
  = replay (forEachHand cv hands st).2 (voxelsRef st).
Proof.
  revert st. induction hands as [|h hands IH]; intros st; [done|].
  cbn [forEachHand]. destruct (readTips (landmarks h)) as [t|]; [|done].
  pose proof (handStep_replay cv t (now h) st) as H1.
  destruct (handStep cv t (now h) st) as [st1 cmds1].
  specialize (IH st1). destruct (forEachHand cv hands st1) as [st2 cmds2].
  cbn [fst snd] in *. by rewrite replay_app, <- H1.
Qed.

Lemma onResults_replay (canvas : option Canvas.t) (hands : list Hand)
    (st : State) :
  voxelsRef (onResults canvas hands st).1
  = replay (onResults canvas hands st).2 (voxelsRef st).
Proof.
  destruct canvas as [cv|]; [|done]. rewrite onResults_forEachHand.
  apply forEachHand_replay.
Qed.

(** X12.  The store changes through the logged commands only: after
    any run of frames the store is the store before the run with the
    issued stamps and shifts applied in order. *)
Theorem store_is_replay (canvas : option Canvas.t) (frames : list (list Hand))
    (st : State) :
  voxelsRef (runFrames canvas frames st).1
  = replay (runFrames canvas frames st).2 (voxelsRef st).
Proof.
  revert st. induction frames as [|f frames IH]; intros st; [done|].
  cbn [runFrames]. pose proof (onResults_replay canvas f st) as H1.
  destruct (onResults canvas f st) as [st1 cmds1].
  specialize (IH st1). destruct (runFrames canvas frames st1) as [st2 cmds2].
  cbn [fst snd] in *. by rewrite replay_app, <- H1.
Qed.

(** X13.  A hand issues at most one command, a stamp or a shift and
    never both: a frame issues no more commands than it has hands. *)
Theorem one_command_per_hand (canvas : option Canvas.t) (hands : list Hand)
    (st : State) :
  (length (onResults canvas hands st).2 ≤ length hands)%nat.
Proof.
  destruct canvas as [cv|]; [|simpl; lia]. rewrite onResults_forEachHand.
  revert st. induction hands as [|h hands IH]; intros st; [done|].
  cbn [forEachHand]. destruct (readTips (landmarks h)) as [t|]; [|simpl; lia].
  pose proof (handStep_one_cmd cv t (now h) st) as H1.
  destruct (handStep cv t (now h) st) as [st1 cmds1].
  specialize (IH st1). destruct (forEachHand cv hands st1) as [st2 cmds2].
  cbn [fst snd] in *. rewrite length_app. simpl. lia.
Qed.

Lemma size_list_to_set_le (l : list string) :
  (size (list_to_set l : gset string) ≤ length l)%nat.
Proof.
  induction l as [|x l IH]; [by rewrite list_to_set_nil, size_empty|].
  rewrite list_to_set_cons, size_union_alt, size_singleton. simpl.
  assert (Hsub : list_to_set l ∖ {[x]} ⊆ (list_to_set l : gset string)).
  { intros y Hy. by apply elem_of_difference in Hy as [? _]. }
  apply subseteq_size in Hsub. lia.
Qed.

Lemma size_shiftAll_le (dx dy : Z) (voxels : gset string) :
  (size (shiftAll dx dy voxels) ≤ size voxels)%nat.
Proof.
  unfold shiftAll, set_map.
  etrans; [apply size_list_to_set_le|]. by rewrite length_fmap.
Qed.

(** X14.  The store grows by stamps only: after a frame it holds at
    most as many keys more as stamps were issued, which is at most one
    per hand; and a shift never increases the number of keys. *)
Theorem store_growth (canvas : option Canvas.t) (hands : list Hand) (st : State) :
  let out := onResults canvas hands st in
  (size (voxelsRef out.1)
   ≤ size (voxelsRef st) + length (List.filter isStamp out.2))%nat
  ∧ (length (List.filter isStamp out.2) ≤ length hands)%nat
  ∧ (∀ dx dy (voxels : gset string),
       size (shiftAll dx dy voxels) ≤ size voxels)%nat.
Proof.
  cbn zeta. split; [|split]; [| |intros; apply size_shiftAll_le];
    (destruct canvas as [cv|]; [|simpl; lia]); rewrite onResults_forEachHand;
    revert st; (induction hands as [|h hands IH]; intros st; [simpl; lia|]);
    cbn [forEachHand];
    (destruct (readTips (landmarks h)) as [t|]; [|simpl; lia]).
  - assert (H1 : (size (voxelsRef (handStep cv t (now h) st).1)
                  ≤ size (voxelsRef st)
                    + length (List.filter isStamp (handStep cv t (now h) st).2))%nat).
    { unfold handStep.
      rewrite <- (fistLogic_voxels (isFist t) (now h) st).
      destruct (isGrabbingRef _).
      - unfold grabLogic. destruct (lastHandPosRef _); [|simpl; lia].
        destruct (_ || _); [|simpl; lia].
        destruct (negb _ || negb _); [|simpl; lia].
        cbn [fst snd voxelsRef List.filter isStamp length].
        etrans; [apply size_shiftAll_le|]. lia.
      - destruct (isPinching t); [|simpl; lia].
        unfold pinchLogic, stamp.
        cbn [fst snd voxelsRef List.filter isStamp length].
        rewrite size_union_alt, size_singleton.
        set (v := voxelsRef _).
        assert (Hsub : v ∖ {[pixelKey (mapped cv (indexTip t))]} ⊆ v).
        { intros y Hy. by apply elem_of_difference in Hy as [? _]. }
        apply subseteq_size in Hsub. lia. }
    destruct (handStep cv t (now h) st) as [st1 cmds1].
    specialize (IH st1). destruct (forEachHand cv hands st1) as [st2 cmds2].
    cbn [fst snd] in *. rewrite List.filter_app, length_app. lia.
  - pose proof (handStep_one_cmd cv t (now h) st) as H1.
    destruct (handStep cv t (now h) st) as [st1 cmds1].
    specialize (IH st1). destruct (forEachHand cv hands st1) as [st2 cmds2].
    cbn [fst snd length] in *. rewrite List.filter_app, length_app.
    pose proof (List.filter_length_le isStamp cmds1). lia.
Qed.

(** ** The store and the gestures do not meet *)

Lemma handStep_gestures (cv : Canvas.t) (t : Tips) (now : Z) (st st' : State) :
  gestureRefs st = gestureRefs st' →
  (handStep cv t now st).2 = (handStep cv t now st').2
  ∧ gestureRefs (handStep cv t now st).1 = gestureRefs (handStep cv t now st').1.
Proof.
  destruct st as [v ts g a], st' as [v' ts' g' a']. unfold gestureRefs.
  cbn [fistStartTimeRef isGrabbingRef lastHandPosRef]. intros [= <- <- <-].
  unfold handStep, fistLogic. cbn [fistStartTimeRef isGrabbingRef lastHandPosRef voxelsRef].
  destruct (isFist t); [destruct (falsy ts); [|destruct (_ >? _)]|];
    cbn [isGrabbingRef];
    (destruct g || idtac);
    unfold grabLogic, pinchLogic;
    cbn [fistStartTimeRef isGrabbingRef lastHandPosRef voxelsRef];
    repeat match goal with
      | |- context [match ?o with Some _ => _ | None => _ end] => destruct o
      | |- context [if ?b then _ else _] => destruct b
      end; done.
Qed.

Lemma forEachHand_gestures (cv : Canvas.t) (hands : list Hand) (st st' : State) :
  gestureRefs st = gestureRefs st' →
  (forEachHand cv hands st).2 = (forEachHand cv hands st').2
  ∧ gestureRefs (forEachHand cv hands st).1
    = gestureRefs (forEachHand cv hands st').1.
Proof.
  revert st st'. induction hands as [|h hands IH]; intros st st' E; [done|].
  cbn [forEachHand]. destruct (readTips (landmarks h)) as [t|]; [|done].
  destruct (handStep_gestures cv t (now h) st st' E) as [H1 H2].
  destruct (handStep cv t (now h) st) as [st1 cmds1].
  destruct (handStep cv t (now h) st') as [st1' cmds1'].
  cbn [fst snd] in H1, H2. destruct (IH st1 st1' H2) as [H3 H4].
  destruct (forEachHand cv hands st1) as [st2 cmds2].
  destruct (forEachHand cv hands st1') as [st2' cmds2'].
  cbn [fst snd] in *. by subst.
Qed.

Lemma onResults_gestures (canvas : option Canvas.t) (hands : list Hand)
    (st st' : State) :
  gestureRefs st = gestureRefs st' →
  (onResults canvas hands st).2 = (onResults canvas hands st').2
  ∧ gestureRefs (onResults canvas hands st).1
    = gestureRefs (onResults canvas hands st').1.
Proof.
  intros E. destruct canvas as [cv|]; [|done].
  rewrite !onResults_forEachHand. by apply forEachHand_gestures.
Qed.

(** X15.  The content of the store never influences the gestures: from
    two states that differ in the store only, a frame issues the same
    commands and leaves the same timer, grabbing flag and anchor. *)
Theorem store_never_read (canvas : option Canvas.t) (hands : list Hand)
    (v v' : gset string) (ts : option Z) (g : bool) (a : option Point.t) :
  (onResults canvas hands (mkState v ts g a)).2
  = (onResults canvas hands (mkState v' ts g a)).2
  ∧ gestureRefs (onResults canvas hands (mkState v ts g a)).1
    = gestureRefs (onResults canvas hands (mkState v' ts g a)).1.
Proof. by apply onResults_gestures. Qed.

Lemma runSession_app (canvas : option Canvas.t) (e1 e2 : list Event)
    (st : State) :
  runSession canvas (e1 ++ e2) st = runSession canvas e2 (runSession canvas e1 st).
Proof.
  revert st. induction e1 as [|[hands|] e1 IH]; intros st; [done| |];
    cbn [app runSession]; apply IH.
Qed.

Lemma runSession_gestures (canvas : option Canvas.t) (events : list Event)
    (st st' : State) :
  gestureRefs st = gestureRefs st' →
  gestureRefs (runSession canvas events st)
  = gestureRefs (runSession canvas events st').
Proof.
  revert st st'. induction events as [|[hands|] events IH]; intros st st' E;
    [done| |]; cbn [runSession]; apply IH.
  - by apply onResults_gestures.
  - exact E.
Qed.

(** X16.  The clear button empties the store and nothing else: pressed
    at any moment of a session, it leaves the timer, the grabbing flag
    and the anchor at the end of the session as they are without it, so
    a grab in progress goes on. *)
Theorem clear_keeps_gestures (canvas : option Canvas.t) (e1 e2 : list Event)
    (st : State) :
  voxelsRef (runSession canvas (e1 ++ [ClearAll]) st) = ∅
  ∧ gestureRefs (runSession canvas (e1 ++ ClearAll :: e2) st)
    = gestureRefs (runSession canvas (e1 ++ e2) st).
Proof.
  rewrite !runSession_app. split; [done|].
  cbn [runSession]. by apply runSession_gestures.
Qed.

(** ** Invariants of a session *)

Lemma handStep_coherent (cv : Canvas.t) (t : Tips) (now : Z) (st : State) :
  coherent st → coherent (handStep cv t now st).1.
Proof.
  intros [Ha Hg]. unfold handStep.
  assert (H1 : coherent (fistLogic (isFist t) now st)).
  { destruct (isFist t).
    - unfold fistLogic. destruct (falsy (fistStartTimeRef st)) eqn:Hfz.
      + assert (Hng : isGrabbingRef st = false).
        { destruct (isGrabbingRef st); [|done].
          destruct (Hg eq_refl) as (s & Hs & Hs0). rewrite Hs in Hfz.
          simpl in Hfz. apply Z.eqb_eq in Hfz. contradiction. }
        split; cbn [lastHandPosRef isGrabbingRef fistStartTimeRef].
        * intros Hsome. rewrite (Ha Hsome) in Hng. discriminate.
        * rewrite Hng. discriminate.
      + assert (Hts : ∃ s, fistStartTimeRef st = Some s ∧ s ≠ 0).
        { destruct (fistStartTimeRef st) as [s|]; [|discriminate].
          exists s. split; [done|]. simpl in Hfz. by apply Z.eqb_neq. }
        destruct (_ >? _); [|done]. split; [done|]. by intros _.
    - split; cbn; [by intros [? [=]]|discriminate]. }
  revert H1. generalize (fistLogic (isFist t) now st). clear.
  intros [v ts g a] [Ha1 Hg1].
  cbn [isGrabbingRef lastHandPosRef fistStartTimeRef] in *.
  destruct g.
  - unfold grabLogic. cbn [isGrabbingRef lastHandPosRef fistStartTimeRef voxelsRef].
    destruct a as [last|]; [|by split].
    destruct (_ || _); [|by split].
    destruct (negb _ || negb _); by split.
  - destruct (isPinching t); by split.
Qed.

Lemma onResults_coherent (canvas : option Canvas.t) (hands : list Hand)
    (st : State) :
  coherent st → coherent (onResults canvas hands st).1.
Proof.
  destruct canvas as [cv|]; [|done]. rewrite onResults_forEachHand.
  revert st. induction hands as [|h hands IH]; intros st Hc; [done|].
  cbn [forEachHand]. destruct (readTips (landmarks h)) as [t|]; [|done].
  pose proof (handStep_coherent cv t (now h) st Hc) as H1.
  destruct (handStep cv t (now h) st) as [st1 cmds1].
  specialize (IH st1 H1). by destruct (forEachHand cv hands st1).
Qed.

(** X17.  In every session of the component the refs agree: an anchor
    is kept only while grabbing, and grabbing only with a timer started
    at a reading other than [0]; and every key of the store is the key
    of a cell with whole coordinates. *)
Theorem session_invariants (canvas : option Canvas.t) (events : list Event) :
  coherent (runSession canvas events initialState)
  ∧ well_formed (voxelsRef (runSession canvas events initialState)).
Proof.
  assert (H : ∀ st, coherent st → well_formed (voxelsRef st) →
                coherent (runSession canvas events st)
                ∧ well_formed (voxelsRef (runSession canvas events st))).
  { induction events as [|[hands|] events IH]; intros st Hc Hw; [done| |];
      cbn [runSession]; apply IH.
    - by apply onResults_coherent.
    - destruct canvas as [cv|]; [|done]. rewrite onResults_forEachHand.
      by apply forEachHand_well_formed.
    - exact Hc.
    - intros key Hk. by apply not_elem_of_empty in Hk. }
  apply H.
  - split; [by intros [? [=]]|discriminate].
  - apply initialState_well_formed.
Qed.

(** ** Landmark arrays *)

Lemma readTips_is_Some (lm : list Point.t) :
  is_Some (readTips lm) ↔ (21 ≤ length lm)%nat.
Proof.
  unfold readTips. split.
  - intros Hs. destruct (lm !! 20%nat) eqn:H20.
    + apply lookup_lt_Some in H20. lia.
    + destruct (lm !! 4%nat), (lm !! 8%nat), (lm !! 12%nat), (lm !! 16%nat);
        by destruct Hs.
  - intros Hl.
    destruct (lookup_lt_is_Some_2 lm 4 ltac:(lia)) as [? ->].
    destruct (lookup_lt_is_Some_2 lm 8 ltac:(lia)) as [? ->].
    destruct (lookup_lt_is_Some_2 lm 12 ltac:(lia)) as [? ->].
    destruct (lookup_lt_is_Some_2 lm 16 ltac:(lia)) as [? ->].
    destruct (lookup_lt_is_Some_2 lm 20 ltac:(lia)) as [? ->].
    destruct (lookup_lt_is_Some_2 lm 0 ltac:(lia)) as [? ->].
    done.
Qed.

(** X18.  A landmark array can be read exactly when it has at least 21
    points, and then the tips are its points 4, 8, 12, 16 and 20 and the
    wrist is its point 0. *)
Theorem readTips_length (lm : list Point.t) :
  (is_Some (readTips lm) ↔ (21 ≤ length lm)%nat)
  ∧ ∀ t, readTips lm = Some t ↔
      lm !! 4%nat = Some (thumbTip t) ∧ lm !! 8%nat = Some (indexTip t)
      ∧ lm !! 12%nat = Some (middleTip t) ∧ lm !! 16%nat = Some (ringTip t)
      ∧ lm !! 20%nat = Some (pinkyTip t) ∧ lm !! 0%nat = Some (wrist t).
Proof.
  split; [apply readTips_is_Some|]. intros [th ix mi ri pk wr].
  unfold readTips. cbn [thumbTip indexTip middleTip ringTip pinkyTip wrist].
  split.
  - destruct (lm !! 4%nat), (lm !! 8%nat), (lm !! 12%nat), (lm !! 16%nat),
      (lm !! 20%nat), (lm !! 0%nat); intros [=]; by subst.
  - by intros (-> & -> & -> & -> & -> & ->).
Qed.

(** X19.  A hand whose landmark array is too short ends the callback:
    the hands before it are processed as usual, the hand itself and the
    hands after it leave no trace. *)
Theorem short_hand_ends_frame (cv : Canvas.t) (pre post : list Hand)
    (h : Hand) (st : State) :
  forallb readable pre = true → (length (landmarks h) < 21)%nat →
  onResults (Some cv) (pre ++ h :: post) st = onResults (Some cv) pre st.
Proof.
  intros Hpre Hlen. rewrite !onResults_forEachHand.
  rewrite (forEachHand_app cv pre (h :: post) st Hpre).
  destruct (forEachHand cv pre st) as [st1 cmds1]. cbn [forEachHand].
  destruct (readTips (landmarks h)) as [t|] eqn:Hr.
  - assert (Hs : is_Some (readTips (landmarks h))) by (by rewrite Hr).
    apply readTips_is_Some in Hs. lia.
  - by rewrite app_nil_r.
Qed.

Lemma short_hand_ends_frame_witness :
  onResults (Some canvas1280)
    ([handAt pinchHand 5] ++ mkHand [] 7 :: [handAt (closedHand 0.2 0.2) 9])
    initialState
  = onResults (Some canvas1280) [handAt pinchHand 5] initialState.
Proof.
  apply (short_hand_ends_frame canvas1280 [handAt pinchHand 5]
           [handAt (closedHand 0.2 0.2) 9] (mkHand [] 7) initialState).
  - reflexivity.
  - simpl. lia.
Defined.

(** ** The first frame of a grab, and how stamps and shifts compose *)



(** X21.  Stamps and shifts commute up to the shift: shifting a store
    that holds a stamped cell gives the shifted store with the shifted
    cell stamped. *)
Theorem shift_of_stamp (dx dy : Z) (c : Z * Z) (voxels : gset string) :
  shiftAll dx dy (stamp (cellKey c) voxels)
  = stamp (cellKey (translate dx dy c)) (shiftAll dx dy voxels).
Proof.
  unfold shiftAll, stamp.
  by rewrite set_map_union_L, set_map_singleton_L, shiftKey_cellKey.
Qed.

(** X22.  A shift is undone by the opposite shift: moving a store of
    cells by [(dx, dy)] and then by [(-dx, -dy)] gives the store back. *)
Theorem shift_back (dx dy : Z) (cells : gset (Z * Z)) :
  shiftAll (- dx) (- dy) (shiftAll dx dy (encode cells)) = encode cells.
Proof.
  rewrite !shiftAll_encode, translate_translate.
  replace (dx + - dx) with 0 by lia. replace (dy + - dy) with 0 by lia.
  by rewrite translate_zero.
Qed.
